(** * The Effekt LLVM runtime's byte buffers

    A shallow embedding of [libraries/llvm/buffer.c] and of the [struct Buffer]
    of [libraries/llvm/types.c], and the properties of it that the
    specification states.

    The C code works on a heap of [malloc]ed blocks.  A block is a list of
    byte cells, a pointer is a block name and a byte offset, and every C
    function becomes a computation in a state-and-failure monad over the
    heap, where failure stands for undefined behaviour (a read or write
    outside a live block, a read of an uninitialised byte, a [free] of
    something that is not the start of a live block). *)

From stdpp Require Import gmap list.

Local Open Scope Z_scope.

(** ** Machine integers

    [uint8_t], [uint32_t] and [uint64_t] values are integers, and the
    conversion to each type is the remainder it takes in C. *)

Definition u8 (v : Z) : Z := v mod 2 ^ 8.
Definition u32 (v : Z) : Z := v mod 2 ^ 32.
Definition u64 (v : Z) : Z := v mod 2 ^ 64.

Definition is_byte (v : Z) : Prop := 0 ≤ v < 256.

(** [#define BUFFER_HEADER_WIDTH (8)] *)
Definition BUFFER_HEADER_WIDTH : Z := 8.

(** ** Memory *)

(** One byte of a block: not yet written, or holding a [uint8_t]. *)
Inductive cell : Type :=
  | Uninit
  | Val (v : Z).

Global Instance cell_eq_dec : EqDecision cell.
Proof. solve_decision. Defined.

(** A pointer: the block it points into and the byte offset inside it. *)
Definition ptr : Type := positive * Z.

Definition ptr_add (p : ptr) (k : Z) : ptr := (p.1, p.2 + k).

Abbreviation heap := (gmap positive (list cell)).

(** The monad of the embedding: a heap goes in; [None] is undefined
    behaviour, [Some (a, h)] a result and the heap after it. *)
Definition M (A : Type) : Type := heap → option (A * heap).

Global Instance M_ret : MRet M := λ A a h, Some (a, h).
Global Instance M_bind : MBind M := λ A B f m h,
  match m h with
  | Some (a, h') => f a h'
  | None => None
  end.

Definition cell_at (h : heap) (p : ptr) : option cell :=
  match h !! p.1 with
  | Some blk => if decide (0 ≤ p.2) then blk !! Z.to_nat p.2 else None
  | None => None
  end.

(** [*p] read through a [uint8_t *] (or a [char *]). *)
Definition load (p : ptr) : M Z := λ h,
  match cell_at h p with
  | Some (Val v) => Some (v, h)
  | _ => None
  end.

(** [*p = v] through a [uint8_t *] (or a [char *]). *)
Definition store (p : ptr) (v : Z) : M unit := λ h,
  match h !! p.1 with
  | Some blk =>
      if decide (0 ≤ p.2 < Z.of_nat (length blk))
      then Some (tt, <[p.1 := <[Z.to_nat p.2 := Val v]> blk]> h)
      else None
  | None => None
  end.

(** [malloc(n)]: a new block of [n] uninitialised bytes.  The allocator of
    the model always has memory. *)
Definition malloc (n : Z) : M ptr := λ h,
  let p := fresh (dom h) in
  Some ((p, 0), <[p := replicate (Z.to_nat n) Uninit]> h).

(** [calloc(n, size)]: a new block of [n * size] zero bytes. *)
Definition calloc (n size : Z) : M ptr := λ h,
  let p := fresh (dom h) in
  Some ((p, 0), <[p := replicate (Z.to_nat (n * size)) (Val 0)]> h).

(** [free(p)]: [p] must be the start of a live block. *)
Definition free (p : ptr) : M unit := λ h,
  match h !! p.1 with
  | Some _ => if decide (p.2 = 0) then Some (tt, delete p.1 h) else None
  | None => None
  end.

(** A local array [char str[k] = {...}]: a block of its own, live until the
    function returns. *)
Definition alloca (init : list Z) : M ptr := λ h,
  let p := fresh (dom h) in
  Some ((p, 0), <[p := Val <$> init]> h).

(** Modelled from the spec: the macro [ASSERT_NON_NULL] is defined outside
    these sources.  The specification says that a failed allocation is
    fatal; the allocator above never returns a null pointer, so the
    assertion passes. *)
Definition ASSERT_NON_NULL (p : ptr) : M unit := mret tt.

(** [for (uint64_t j = j0; j < n; ++j) body], run for the [cnt] iterations
    that remain; [s] is the state of the local variables the body updates. *)
Fixpoint for_loop {St : Type} (cnt : nat) (j : Z) (body : Z → St → M St)
    (s : St) : M St :=
  match cnt with
  | O => mret s
  | S cnt' => s' ← body j s; for_loop cnt' (j + 1) body s'
  end.

(** [for (uint64_t j = 0; j < n; ++j) body] *)
Definition for_upto {St : Type} (n : Z) (body : Z → St → M St) (s : St)
    : M St :=
  for_loop (Z.to_nat n) 0 body s.

(** ** [struct Buffer] (types.c)

    [offset] and [length] are [uint32_t]; [data] is the [void *] to the
    storage block. *)
Record Buffer : Type := mkBuffer {
  b_offset : Z;
  b_length : Z;
  b_data : ptr;
}.

(** ** buffer.c *)

Definition c_buffer_offset (buffer : Buffer) : Z := b_offset buffer.

Definition c_buffer_length (buffer : Buffer) : Z := b_length buffer.

Definition c_buffer_refcount (buffer : Buffer) : ptr :=
  ptr_add (b_data buffer) 0.

Definition c_buffer_bytes (buffer : Buffer) : ptr :=
  ptr_add (ptr_add (b_data buffer) BUFFER_HEADER_WIDTH) (b_offset buffer).

Definition c_buffer_construct (n : Z) (data : ptr) : M Buffer :=
  obj ← malloc (u64 (BUFFER_HEADER_WIDTH + u64 (n * 1)));
  _ ← ASSERT_NON_NULL obj;
  _ ← for_upto BUFFER_HEADER_WIDTH (λ j _, store (ptr_add obj j) 0) tt;
  _ ← for_upto n (λ j _,
        v ← load (ptr_add data j);
        store (ptr_add obj (u64 (BUFFER_HEADER_WIDTH + j))) v) tt;
  mret {| b_offset := 0; b_length := u32 n; b_data := obj |}.

Definition c_buffer_construct_zeroed (n : Z) : M Buffer :=
  zeroes ← calloc n 1;
  _ ← ASSERT_NON_NULL zeroes;
  buffer ← c_buffer_construct n zeroes;
  _ ← free zeroes;
  mret buffer.


Definition c_buffer_destruct (buffer : Buffer) : M unit :=
  free (b_data buffer).

Definition c_buffer_index (buffer : Buffer) (index : Z) : M Z :=
  load (ptr_add
          (ptr_add (ptr_add (b_data buffer) BUFFER_HEADER_WIDTH)
             (b_offset buffer))
          index).

(** *** Reference counting

    The counter is the [uint64_t] in the first eight bytes of the block, in
    the byte order of the machine ("this assumes a homogenously used byte
    order").  [DEBUG_REFCOUNT] is a macro defined outside these sources; it is
    a parameter here.  The trace it turns on goes to [stderr], which the
    model does not keep, but the trace reads the counter. *)

Inductive byte_order : Type := LittleEndian | BigEndian.

Fixpoint le_bytes (k : nat) (v : Z) : list Z :=
  match k with
  | O => []
  | S k' => v mod 256 :: le_bytes k' (v / 256)
  end.

Fixpoint le_value (bs : list Z) : Z :=
  match bs with
  | [] => 0
  | b :: bs' => b + 256 * le_value bs'
  end.

Definition encode64 (order : byte_order) (v : Z) : list Z :=
  match order with
  | LittleEndian => le_bytes 8 v
  | BigEndian => rev (le_bytes 8 v)
  end.

Definition decode64 (order : byte_order) (bs : list Z) : Z :=
  match order with
  | LittleEndian => le_value bs
  | BigEndian => le_value (rev bs)
  end.

Fixpoint load_bytes (k : nat) (p : ptr) : M (list Z) :=
  match k with
  | O => mret []
  | S k' => b ← load p; bs ← load_bytes k' (ptr_add p 1); mret (b :: bs)
  end.

Fixpoint store_bytes (p : ptr) (bs : list Z) : M unit :=
  match bs with
  | [] => mret tt
  | b :: bs' => _ ← store p b; store_bytes (ptr_add p 1) bs'
  end.

Section Refcount.
Context (order : byte_order) (DEBUG_REFCOUNT : bool).

(** [*p] and [*p = v] through a [uint64_t *]. *)
Definition load64 (p : ptr) : M Z :=
  bs ← load_bytes 8 p; mret (decode64 order bs).

Definition store64 (p : ptr) (v : Z) : M unit :=
  store_bytes p (encode64 order v).

Definition trace_refcount (buffer : Buffer) : M unit :=
  if DEBUG_REFCOUNT
  then _ ← load64 (c_buffer_refcount buffer); mret tt
  else mret tt.

Definition c_buffer_refcount_increment (buffer : Buffer) : M unit :=
  _ ← trace_refcount buffer;
  count ← load64 (c_buffer_refcount buffer);
  store64 (c_buffer_refcount buffer) (u64 (count + 1)).

Definition c_buffer_refcount_decrement (buffer : Buffer) : M unit :=
  _ ← trace_refcount buffer;
  count ← load64 (c_buffer_refcount buffer);
  _ ← store64 (c_buffer_refcount buffer) (u64 (count - 1));
  if decide (count = 0) then c_buffer_destruct buffer else mret tt.
End Refcount.

(** *** Views *)

Definition c_buffer_slice (buffer : Buffer) (offset length : Z) : Buffer :=
  if decide (u64 (u64 (c_buffer_offset buffer + offset) + length)
             > c_buffer_length buffer)
  then buffer
  else {| b_offset := u32 (u64 (c_buffer_offset buffer + offset));
          b_length := u32 length;
          b_data := b_data buffer |}.


(** *** Null-terminated strings

    A [char] cell holds the byte of its object representation, so that
    [buf[k] = 0xc0] stores the byte [0xC0] and [buf[k] == 0] tests the byte
    against zero. *)

Definition c_buffer_as_null_terminated_string (buffer : Buffer) : M ptr :=
  let length := c_buffer_length buffer in
  let bytes := c_buffer_bytes buffer in
  zero_runes ← for_upto length (λ j zero_runes,
      v ← load (ptr_add bytes j);
      mret (u64 (zero_runes + (if decide (v = 0) then 1 else 0)))) 0;
  let n := u64 (length + zero_runes) in
  buf ← malloc (u64 (u64 (n + 1) * 1));
  _ ← ASSERT_NON_NULL buf;
  _ ← for_upto length (λ j i,
      v ← load (ptr_add bytes j);
      _ ← store (ptr_add buf i) v;
      let i := u64 (i + 1) in
      c ← load (ptr_add buf (u64 (i - 1)));
      if decide (c = 0) then
        _ ← store (ptr_add buf (u64 (i - 1))) 0xc0;
        _ ← store (ptr_add buf i) 0x80;
        mret (u64 (i + 1))
      else mret i) 0;
  _ ← store (ptr_add buf n) 0;
  mret buf.

(** [while (data_nt[++n]);] with [fuel] iterations at most. *)
Fixpoint scan_terminator (fuel : nat) (data_nt : ptr) (n : Z) : M Z :=
  match fuel with
  | O => λ _, None
  | S fuel' =>
      let n := u64 (n + 1) in
      c ← load (ptr_add data_nt n);
      if decide (c ≠ 0) then scan_terminator fuel' data_nt n else mret n
  end.

Definition block_size (h : heap) (p : ptr) : nat :=
  from_option length 0%nat (h !! p.1).

(** Every iteration of the scan reads one byte further into the block of
    [data_nt], so after as many iterations as the block has bytes the next
    read would be outside it: that many iterations are all the loop can
    make (lemma [scan_terminator_fuel] below). *)
Definition c_buffer_construct_from_null_terminated_string (data_nt : ptr)
    : M Buffer := λ h,
  (n ← scan_terminator (block_size h data_nt) data_nt 0;
   c_buffer_construct n data_nt) h.

(** *** Derived operations *)

Definition c_buffer_concatenate (left right : Buffer) : M Buffer :=
  concatenated ← c_buffer_construct_zeroed
                   (u64 (c_buffer_length left + c_buffer_length right));
  _ ← for_upto (c_buffer_length concatenated) (λ j _,
        v ← (if decide (j < c_buffer_length left)
             then load (ptr_add (c_buffer_bytes left) j)
             else load (ptr_add (c_buffer_bytes right)
                          (u64 (j - c_buffer_length left))));
        store (ptr_add (c_buffer_bytes concatenated) j) v) tt;
  mret concatenated.

Definition c_buffer_show_Char (n : Z) : M Buffer :=
  str ← alloca [0; 0; 0; 0; 0];
  let buf := str in
  _ ← (if decide (n < 0x80) then
         store (ptr_add buf 0) (u8 n)
       else if decide (n < 0x800) then
         _ ← store (ptr_add buf 0) (u8 (Z.lor 0xC0 (n ≫ 6)));
         store (ptr_add buf 1) (u8 (Z.lor 0x80 (Z.land n 0x3F)))
       else if decide (n < 0x10000) then
         _ ← store (ptr_add buf 0) (u8 (Z.lor 0xE0 (n ≫ 12)));
         _ ← store (ptr_add buf 1) (u8 (Z.lor 0x80 (Z.land (n ≫ 6) 0x3F)));
         store (ptr_add buf 2) (u8 (Z.lor 0x80 (Z.land n 0x3F)))
       else if decide (n < 0x110000) then
         _ ← store (ptr_add buf 0) (u8 (Z.lor 0xF0 (n ≫ 18)));
         _ ← store (ptr_add buf 1) (u8 (Z.lor 0x80 (Z.land (n ≫ 12) 0x3F)));
         _ ← store (ptr_add buf 2) (u8 (Z.lor 0x80 (Z.land (n ≫ 6) 0x3F)));
         store (ptr_add buf 3) (u8 (Z.lor 0x80 (Z.land n 0x3F)))
       else mret tt);
  buffer ← c_buffer_construct_from_null_terminated_string str;
  _ ← free str; (* the lifetime of [str] ends with the call *)
  mret buffer.

Definition c_buffer_character_at (buffer : Buffer) (index : Z) : M Z :=
  let bytes := c_buffer_bytes buffer in
  first_byte ← load (ptr_add bytes index);
  if decide (first_byte < 0x80) then
    mret (u32 first_byte)
  else if decide (Z.land first_byte 0xE0 = 0xC0) then
    if decide (u64 (index + 1) < b_length buffer) then
      b1 ← load (ptr_add bytes (u64 (index + 1)));
      mret (u32 (Z.lor ((Z.land first_byte 0x1F) ≪ 6) (Z.land b1 0x3F)))
    else mret 0
  else if decide (Z.land first_byte 0xF0 = 0xE0) then
    if decide (u64 (index + 2) < b_length buffer) then
      b1 ← load (ptr_add bytes (u64 (index + 1)));
      b2 ← load (ptr_add bytes (u64 (index + 2)));
      mret (u32 (Z.lor (Z.lor ((Z.land first_byte 0x0F) ≪ 12)
                          ((Z.land b1 0x3F) ≪ 6))
                   (Z.land b2 0x3F)))
    else mret 0
  else if decide (Z.land first_byte 0xF8 = 0xF0) then
    if decide (u64 (index + 3) < b_length buffer) then
      b1 ← load (ptr_add bytes (u64 (index + 1)));
      b2 ← load (ptr_add bytes (u64 (index + 2)));
      b3 ← load (ptr_add bytes (u64 (index + 3)));
      mret (u32 (Z.lor (Z.lor (Z.lor ((Z.land first_byte 0x07) ≪ 18)
                                 ((Z.land b1 0x3F) ≪ 12))
                          ((Z.land b2 0x3F) ≪ 6))
                   (Z.land b3 0x3F)))
    else mret 0
  else mret 0.

(** *** [struct Pos] and the Boolean constants (types.c)

    [obj] is a pointer into the heap, [None] for [NULL]. *)
Record Pos : Type := mkPos {
  tag : Z;
  obj : option ptr;
}.

Definition Unit : Pos := {| tag := 0; obj := None |}.
Definition BooleanFalse : Pos := {| tag := 0; obj := None |}.
Definition BooleanTrue : Pos := {| tag := 1; obj := None |}.

(** *** The rest of buffer.c *)

(** [value] is a [uint8_t]: what a caller passes arrives as a byte. *)
Definition c_buffer_set (buffer : Buffer) (index : Z) (value : Z) : M unit :=
  store (ptr_add
           (ptr_add (ptr_add (b_data buffer) BUFFER_HEADER_WIDTH)
              (b_offset buffer))
           index) value.

(** The loop of [c_buffer_eq], which returns from the function at the first
    pair of bytes that differ: [cnt] iterations remain, from [j] on. *)
Fixpoint eq_loop (cnt : nat) (j : Z) (left right : Buffer) : M Pos :=
  match cnt with
  | O => mret BooleanTrue
  | S cnt' =>
      l ← load (ptr_add (c_buffer_bytes left) j);
      r ← load (ptr_add (c_buffer_bytes right) j);
      if decide (l ≠ r) then mret BooleanFalse
      else eq_loop cnt' (j + 1) left right
  end.

Definition c_buffer_eq (left right : Buffer) : M Pos :=
  let left_len := c_buffer_length left in
  let right_len := c_buffer_length right in
  if decide (left_len ≠ right_len) then mret BooleanFalse
  else eq_loop (Z.to_nat left_len) 0 left right.

Definition c_buffer_substring (str : Buffer) (start end_ : Z) : M Buffer :=
  substr ← c_buffer_construct_zeroed (u64 (end_ - start));
  _ ← for_upto (c_buffer_length substr) (λ j _,
        v ← load (ptr_add (c_buffer_bytes str) (u64 (start + j)));
        store (ptr_add (c_buffer_bytes substr) j) v) tt;
  mret substr.

(** A local array [char str[k];] that is not initialised. *)
Definition alloca_uninit (k : Z) : M ptr := λ h,
  let p := fresh (dom h) in
  Some ((p, 0), <[p := replicate (Z.to_nat k) Uninit]> h).

(** The number formatters call [sprintf] of the C library, which is not
    part of these sources: [sprintf_PRId64 str n] stands for
    [sprintf(str, "%" PRId64, n)], [sprintf_PRIu8] and [sprintf_g] likewise
    for ["%" PRIu8] and ["%g"].  [Double] is the type of the values of
    [double]. *)
Section Formatters.
Context {Double : Type}.
Context (sprintf_PRId64 sprintf_PRIu8 : ptr → Z → M unit).
Context (sprintf_g : ptr → Double → M unit).

Definition c_buffer_show_Int (n : Z) : M Buffer :=
  str ← alloca_uninit 24;
  _ ← sprintf_PRId64 str n;
  buffer ← c_buffer_construct_from_null_terminated_string str;
  _ ← free str; (* the lifetime of [str] ends with the call *)
  mret buffer.

Definition c_buffer_show_Byte (n : Z) : M Buffer :=
  str ← alloca_uninit 4;
  _ ← sprintf_PRIu8 str n;
  buffer ← c_buffer_construct_from_null_terminated_string str;
  _ ← free str; (* the lifetime of [str] ends with the call *)
  mret buffer.

Definition c_buffer_show_Double (x : Double) : M Buffer :=
  str ← alloca_uninit 64;
  _ ← sprintf_g str x;
  buffer ← c_buffer_construct_from_null_terminated_string str;
  _ ← free str; (* the lifetime of [str] ends with the call *)
  mret buffer.
End Formatters.

(** ** What the properties are stated with *)

(** The memory at [p] holds the bytes [bs], in order. *)
Definition holds (h : heap) (p : ptr) (bs : list Z) : Prop :=
  ∃ blk, h !! p.1 = Some blk ∧ 0 ≤ p.2 ∧
         take (length bs) (drop (Z.to_nat p.2) blk) = Val <$> bs.

(** [buffer] is a view of the bytes [bs]: its fields are [uint32_t]s, its
    [data] is the start of a live block, and the [length] bytes from
    [offset] on in the payload of the block are [bs]. *)
Definition view_of (h : heap) (buffer : Buffer) (bs : list Z) : Prop :=
  0 ≤ b_offset buffer < 2 ^ 32 ∧
  b_length buffer = Z.of_nat (length bs) ∧ b_length buffer < 2 ^ 32 ∧
  (b_data buffer).2 = 0 ∧
  holds h (c_buffer_bytes buffer) bs.

(** A block just built by a constructor: a zeroed header, then the payload. *)
Definition storage (payload : list Z) : list cell :=
  replicate 8 (Val 0) ++ (Val <$> payload).

(** The number of bytes of the UTF-8 sequence that the leading byte
    [first_byte] announces, by its high bits: [0xxxxxxx] one, [110xxxxx] two,
    [1110xxxx] three, [11110xxx] four; no other byte leads a sequence. *)
Definition sequence_width (first_byte : Z) : option Z :=
  if decide (first_byte < 0x80) then Some 1
  else if decide (Z.land first_byte 0xE0 = 0xC0) then Some 2
  else if decide (Z.land first_byte 0xF0 = 0xE0) then Some 3
  else if decide (Z.land first_byte 0xF8 = 0xF0) then Some 4
  else None.

(** The local array [str] of [c_buffer_show_Char n] when the branches have
    written it. *)
Definition show_Char_str (n : Z) : list Z :=
  let str := [0; 0; 0; 0; 0] in
  if decide (n < 0x80) then
    <[0%nat := u8 n]> str
  else if decide (n < 0x800) then
    <[1%nat := u8 (Z.lor 0x80 (Z.land n 0x3F))]>
      (<[0%nat := u8 (Z.lor 0xC0 (n ≫ 6))]> str)
  else if decide (n < 0x10000) then
    <[2%nat := u8 (Z.lor 0x80 (Z.land n 0x3F))]>
      (<[1%nat := u8 (Z.lor 0x80 (Z.land (n ≫ 6) 0x3F))]>
         (<[0%nat := u8 (Z.lor 0xE0 (n ≫ 12))]> str))
  else if decide (n < 0x110000) then
    <[3%nat := u8 (Z.lor 0x80 (Z.land n 0x3F))]>
      (<[2%nat := u8 (Z.lor 0x80 (Z.land (n ≫ 6) 0x3F))]>
         (<[1%nat := u8 (Z.lor 0x80 (Z.land (n ≫ 12) 0x3F))]>
            (<[0%nat := u8 (Z.lor 0xF0 (n ≫ 18))]> str)))
  else str.

(** The external text of a payload, before its terminator: a zero byte
    becomes the two bytes [0xC0 0x80], any other byte stays. *)
Definition escape_zero (b : Z) : list Z :=
  if decide (b = 0) then [0xC0; 0x80] else [b].

Definition escaped (bs : list Z) : list Z := bs ≫= escape_zero.

(** The number of zero bytes in a payload. *)
Definition zero_count (bs : list Z) : nat := length (filter (λ b, b = 0) bs).

(** Inputs too large to write out: [2 ^ 32] and [2 ^ 31] zero bytes. *)
Definition four_gib : list Z := replicate (Z.to_nat (2 ^ 32)) 0.

Definition two_gib : list Z := replicate (Z.to_nat (2 ^ 31)) 0.

(** A block whose counter is [count], in the byte order [order]. *)
Definition counted (order : byte_order) (count : Z) (rest : list cell)
    : list cell :=
  (Val <$> encode64 order count) ++ rest.

(** [sprintf] writes the characters [text] and a terminator at the start of
    the array it is given, when the array has room for them, and nothing
    else. *)
Definition writes_text {A : Type} (sprintf : ptr → A → M unit) (a : A)
    (text : list Z) : Prop :=
  ∀ (h : heap) (p : positive) (blk : list cell),
    h !! p = Some blk →
    (length text < length blk)%nat →
    sprintf (p, 0) a h
    = Some (tt, <[p := (Val <$> (text ++ [0]))
                       ++ drop (S (length text)) blk]> h).

(** A caller that makes the same call [k] times. *)
Fixpoint times (k : nat) (call : M unit) : M unit :=
  match k with
  | O => mret tt
  | S k' => _ ← call; times k' call
  end.

(** [run] returns a view with offset 0 and of the length of [text], of a
    block that did not exist before and that holds [text] after its header;
    nothing else of the memory is changed, and nothing else is left in it. *)
Definition yields_text (run : M Buffer) (h : heap) (text : list Z) : Prop :=
  ∃ q : positive,
    h !! q = None ∧
    run h = Some ({| b_offset := 0; b_length := Z.of_nat (length text);
                     b_data := (q, 0) |},
                  <[q := storage text]> h).

(** * Properties *)

(** ** The monad and the memory operations *)

Lemma bind_unfold {A B} (m : M A) (f : A → M B) (h : heap) :
  (m ≫= f) h = match m h with Some (a, h') => f a h' | None => None end.
Proof. reflexivity. Qed.

Lemma bind_Some {A B} (m : M A) (f : A → M B) (h h' : heap) (a : A) :
  m h = Some (a, h') → (m ≫= f) h = f a h'.
Proof. intros E. by rewrite bind_unfold, E. Qed.

Lemma u64_small (v : Z) : 0 ≤ v < 2 ^ 64 → u64 v = v.
Proof. apply Z.mod_small. Qed.

Lemma u32_small (v : Z) : 0 ≤ v < 2 ^ 32 → u32 v = v.
Proof. apply Z.mod_small. Qed.

Lemma fresh_None (h : heap) : h !! fresh (dom h) = None.
Proof. apply not_elem_of_dom, is_fresh. Qed.

Lemma load_Some (h : heap) (p : ptr) (blk : list cell) (v : Z) :
  h !! p.1 = Some blk → 0 ≤ p.2 → blk !! Z.to_nat p.2 = Some (Val v) →
  load p h = Some (v, h).
Proof.
  intros Hb Hp Hv. unfold load, cell_at. rewrite Hb.
  destruct (decide (0 ≤ p.2)); [|lia]. by rewrite Hv.
Qed.

Lemma store_Some (h : heap) (p : ptr) (blk : list cell) (v : Z) :
  h !! p.1 = Some blk → 0 ≤ p.2 < Z.of_nat (length blk) →
  store p v h = Some (tt, <[p.1 := <[Z.to_nat p.2 := Val v]> blk]> h).
Proof.
  intros Hb Hp. unfold store. rewrite Hb.
  by destruct (decide (0 ≤ p.2 < Z.of_nat (length blk))).
Qed.

Lemma free_run (h : heap) (p : positive) (blk : list cell) :
  h !! p = Some blk → free (p, 0) h = Some (tt, delete p h).
Proof. intros Hp. unfold free. simpl. by rewrite Hp. Qed.

Lemma holds_lookup (h : heap) (p : ptr) (bs : list Z) (j : Z) (b : Z) :
  holds h p bs → 0 ≤ j → bs !! Z.to_nat j = Some b →
  load (ptr_add p j) h = Some (b, h).
Proof.
  intros (blk & Hb & Hp & Hbs) Hj Hl.
  apply (load_Some _ _ blk); simpl; [done|lia|].
  assert (Z.to_nat j < length bs)%nat as Hlt by (by eapply lookup_lt_Some).
  assert ((Val <$> bs) !! Z.to_nat j = Some (Val b)) as Hv
    by (by rewrite list_lookup_fmap, Hl).
  rewrite <- Hbs, lookup_take_lt, lookup_drop in Hv by done.
  by rewrite Z2Nat.inj_add by lia.
Qed.

(** [holds] on a heap and bytes that are written out. *)
Ltac concrete_holds :=
  eexists; split; [reflexivity|split; [by vm_compute|reflexivity]].

Lemma holds_agree (h h' : heap) (p : ptr) (bs : list Z) :
  h' !! p.1 = h !! p.1 → holds h p bs → holds h' p bs.
Proof. intros E (blk & Hb & ?). exists blk. by rewrite E. Qed.

(** ** Loops that fill a block

    A loop whose [k]-th iteration stores [vs !! k] at byte [base + j0 + k]
    of block [q], and changes nothing else, overwrites that part of the
    block with [vs]. *)

Lemma for_loop_fill (q : positive) (base : Z) (body : Z → unit → M unit)
    (vs : list Z) :
  ∀ (j0 : Z) (h : heap) (blk : list cell),
    h !! q = Some blk →
    0 ≤ base + j0 →
    base + j0 + Z.of_nat (length vs) ≤ Z.of_nat (length blk) →
    (∀ (k : nat) (v : Z) (h' : heap) (blk' : list cell),
        vs !! k = Some v →
        h' !! q = Some blk' → length blk' = length blk →
        (∀ q', q' ≠ q → h' !! q' = h !! q') →
        body (j0 + Z.of_nat k) tt h'
        = Some (tt, <[q := <[Z.to_nat (base + j0 + Z.of_nat k) := Val v]> blk']> h')) →
    for_loop (length vs) j0 body tt h
    = Some (tt, <[q := take (Z.to_nat (base + j0)) blk ++ (Val <$> vs)
                       ++ drop (Z.to_nat (base + j0) + length vs) blk]> h).
Proof.
  induction vs as [|v vs IH]; intros j0 h blk Hq Hlo Hhi Hbody.
  - simpl. rewrite Nat.add_0_r, take_drop. by rewrite insert_id.
  - simpl in Hhi. simpl for_loop.
    pose proof (Hbody 0%nat v h blk eq_refl Hq eq_refl (λ _ _, eq_refl)) as H0.
    rewrite !Z.add_0_r in H0.
    rewrite (bind_Some _ _ _ _ _ H0).
    set (K := Z.to_nat (base + j0)) in *.
    assert (K < length blk)%nat as HK by lia.
    rewrite (IH (j0 + 1) _ (<[K := Val v]> blk)).
    + rewrite insert_insert_eq.
      replace (Z.to_nat (base + (j0 + 1))) with (S K) by lia.
      rewrite (take_S_r _ _ (Val v)) by (by apply list_lookup_insert_eq).
      rewrite take_insert_ge by lia.
      rewrite drop_insert_lt by lia.
      rewrite <- app_assoc. simpl.
      by replace (K + S (length vs))%nat with (S (K + length vs)) by lia.
    + by rewrite lookup_insert_eq.
    + lia.
    + rewrite length_insert. lia.
    + intros k v' h' blk' Hv Hq' Hlen Hagree.
      replace (j0 + 1 + Z.of_nat k) with (j0 + Z.of_nat (S k)) by lia.
      replace (base + (j0 + 1) + Z.of_nat k)
        with (base + j0 + Z.of_nat (S k)) by lia.
      apply Hbody; [done|done|by rewrite Hlen, length_insert|].
      intros q' Hne. rewrite Hagree by done. by rewrite lookup_insert_ne.
Qed.

(** ** Construction *)

Lemma header_loop (q : positive) (h : heap) (blk : list cell) :
  h !! q = Some blk → (8 ≤ length blk)%nat →
  for_upto BUFFER_HEADER_WIDTH (λ j _, store (ptr_add (q, 0) j) 0) tt h
  = Some (tt, <[q := replicate 8 (Val 0) ++ drop 8 blk]> h).
Proof.
  intros Hq Hlen. unfold for_upto.
  change (Z.to_nat BUFFER_HEADER_WIDTH) with (length (replicate 8 0)).
  rewrite (for_loop_fill q 0 _ (replicate 8 0) 0 h blk); [done|done|lia| |].
  { simpl length. lia. }
  intros k v h' blk' Hk Hq' Hlen' _.
  apply lookup_replicate in Hk as [-> Hk].
  rewrite (store_Some h' _ blk'); simpl; [|done|lia].
  by rewrite !Z.add_0_l.
Qed.

Lemma copy_loop (q : positive) (data : ptr) (bs : list Z) (h : heap)
    (blk : list cell) :
  h !! q = Some blk → data.1 ≠ q → holds h data bs →
  Z.of_nat (length bs) + 8 < 2 ^ 64 →
  (8 + length bs ≤ length blk)%nat →
  for_upto (Z.of_nat (length bs)) (λ j _,
      v ← load (ptr_add data j);
      store (ptr_add (q, 0) (u64 (BUFFER_HEADER_WIDTH + j))) v) tt h
  = Some (tt, <[q := take 8 blk ++ (Val <$> bs) ++ drop (8 + length bs) blk]> h).
Proof.
  intros Hq Hne Hdata Hn Hlen. unfold for_upto. rewrite Nat2Z.id.
  rewrite (for_loop_fill q 8 _ bs 0 h blk); [done|done|lia|lia|].
  intros k v h' blk' Hk Hq' Hlen' Hagree.
  assert (k < length bs)%nat by (by eapply lookup_lt_Some).
  rewrite (bind_Some _ _ _ h' v).
  - unfold BUFFER_HEADER_WIDTH. rewrite u64_small by lia.
    rewrite (store_Some h' _ blk'); simpl; [|done|lia].
    repeat f_equal; lia.
  - apply (holds_lookup _ _ bs); [|lia|by rewrite Z.add_0_l, Nat2Z.id].
    eapply holds_agree; [|done]. by apply Hagree.
Qed.

Lemma construct_run (h : heap) (data : ptr) (n : Z) (bs : list Z) :
  Z.of_nat (length bs) = n → n + 8 < 2 ^ 64 → holds h data bs →
  c_buffer_construct n data h
  = Some ({| b_offset := 0; b_length := u32 n; b_data := (fresh (dom h), 0) |},
          <[fresh (dom h) := storage bs]> h).
Proof.
  intros <- Hn Hdata. unfold c_buffer_construct.
  pose proof (fresh_None h) as Hfresh. set (q := fresh (dom h)) in *.
  set (sz := Z.to_nat (u64 (BUFFER_HEADER_WIDTH + u64 (Z.of_nat (length bs) * 1)))).
  assert (sz = (8 + length bs)%nat) as Hsz.
  { unfold sz, BUFFER_HEADER_WIDTH.
    rewrite Z.mul_1_r, (u64_small (Z.of_nat _)) by lia.
    rewrite u64_small by lia. lia. }
  rewrite (bind_Some _ _ _ (<[q := replicate sz Uninit]> h) (q, 0)) by done.
  rewrite (bind_Some _ _ _ (<[q := replicate sz Uninit]> h) tt) by done.
  erewrite bind_Some; cycle 1.
  { apply (header_loop q _ (replicate sz Uninit)); [apply lookup_insert_eq|].
    rewrite length_replicate. lia. }
  rewrite insert_insert_eq.
  erewrite bind_Some; cycle 1.
  { apply (copy_loop q data bs); [apply lookup_insert_eq| | |done|].
    - destruct Hdata as (blk & Hb & _). intros E. rewrite E in Hb. congruence.
    - eapply holds_agree; [|done]. apply lookup_insert_ne.
      destruct Hdata as (blk & Hb & _). intros E. rewrite <- E in Hb. congruence.
    - rewrite length_app, !length_replicate, length_drop, length_replicate. lia. }
  rewrite insert_insert_eq. unfold mret, M_ret. do 3 f_equal.
  rewrite Hsz, take_app_length' by done.
  rewrite drop_ge, app_nil_r; [done|].
  rewrite length_app, length_drop, !length_replicate. lia.
Qed.

Lemma index_run (h : heap) (buffer : Buffer) (bs : list Z) (j v : Z) :
  holds h (c_buffer_bytes buffer) bs → 0 ≤ j → bs !! Z.to_nat j = Some v →
  c_buffer_index buffer j h = Some (v, h).
Proof. intros Hb Hj Hv. by apply (holds_lookup h _ bs). Qed.

Lemma storage_length (bs : list Z) : length (storage bs) = (8 + length bs)%nat.
Proof. unfold storage. by rewrite length_app, length_fmap. Qed.

Lemma storage_holds (h : heap) (q : positive) (len : Z) (bs : list Z) :
  holds (<[q := storage bs]> h)
    (c_buffer_bytes {| b_offset := 0; b_length := len; b_data := (q, 0) |}) bs.
Proof.
  exists (storage bs). split; [apply lookup_insert_eq|]. split; [done|].
  change (Z.to_nat _) with 8%nat. unfold storage.
  rewrite drop_app_length' by done.
  by rewrite take_ge by (by rewrite length_fmap).
Qed.

(** C3 (as the code has it).  For every [n] below [2 ^ 64 - 8] and every
    sequence [bytes] of [n] bytes in memory, [c_buffer_construct n bytes]
    returns a view with offset 0 over a block that did not exist before,
    made of an all-zero header of eight bytes followed by a copy of
    [bytes]; [c_buffer_index] of the view at [j] is [bytes[j]] for every
    [j < n].  The length of the view is [n] converted to [uint32_t]: it is
    [n] when [n < 2 ^ 32]. *)
Theorem construct_view (h : heap) (data : ptr) (n : Z) (bytes : list Z) :
  Z.of_nat (length bytes) = n →
  n + BUFFER_HEADER_WIDTH < 2 ^ 64 →
  holds h data bytes →
  ∃ (obj : positive) (b : Buffer) (h' : heap),
    c_buffer_construct n data h = Some (b, h') ∧
    h !! obj = None ∧ h' = <[obj := storage bytes]> h ∧
    b_data b = (obj, 0) ∧ b_offset b = 0 ∧
    b_length b = n mod 2 ^ 32 ∧ (n < 2 ^ 32 → b_length b = n) ∧
    ∀ (j v : Z), 0 ≤ j < n → bytes !! Z.to_nat j = Some v →
                 c_buffer_index b j h' = Some (v, h').
Proof.
  intros Hlen Hn Hdata.
  eexists _, _, _. split; [by apply (construct_run h data n bytes)|].
  split; [apply fresh_None|]. do 4 (split; [done|]). split.
  - intros Hsmall. apply u32_small. lia.
  - intros j v Hj Hv. apply (index_run _ _ bytes); [|lia|done].
    apply storage_holds.
Qed.

Lemma construct_view_witness :
  let h : heap := {[ 1%positive := [Val 0x41; Val 0x42; Val 0x43] ]} in
  holds h (1%positive, 0) [0x41; 0x42; 0x43] ∧
  ∃ (b : Buffer) (h' : heap),
    c_buffer_construct 3 (1%positive, 0) h = Some (b, h') ∧
    b_offset b = 0 ∧ b_length b = 3 ∧
    c_buffer_index b 0 h' = Some (0x41, h') ∧
    c_buffer_index b 2 h' = Some (0x43, h').
Proof.
  intros h.
  assert (holds h (1%positive, 0) [0x41; 0x42; 0x43]) as Hh.
  { concrete_holds. }
  split; [exact Hh|].
  destruct (construct_view h (1%positive, 0) 3 [0x41; 0x42; 0x43]
              eq_refl eq_refl Hh)
    as (obj & b & h' & Hrun & _ & _ & _ & Hoff & _ & Hlen & Hidx).
  exists b, h'. split; [exact Hrun|]. split; [exact Hoff|].
  split; [apply Hlen; reflexivity|].
  split; apply Hidx; (lia || reflexivity).
Defined.

Lemma four_gib_length : Z.of_nat (length four_gib) = 2 ^ 32.
Proof. unfold four_gib. rewrite length_replicate. by apply Z2Nat.id. Qed.

Lemma four_gib_holds :
  holds {[ 1%positive := Val <$> four_gib ]} (1%positive, 0) four_gib.
Proof.
  eexists. split; [apply lookup_singleton_eq|]. split; [done|].
  change (Z.to_nat (1%positive, 0).2) with 0%nat. rewrite drop_0.
  apply take_ge. by rewrite length_fmap.
Qed.

(** C3 as it is stated fails: built from [2 ^ 32] bytes, the view has
    length 0, not [2 ^ 32]. *)
Lemma construct_length_wraps :
  holds {[ 1%positive := Val <$> four_gib ]} (1%positive, 0) four_gib ∧
  Z.of_nat (length four_gib) = 2 ^ 32 ∧
  ∃ (b : Buffer) (h' : heap),
    c_buffer_construct (2 ^ 32) (1%positive, 0)
      {[ 1%positive := Val <$> four_gib ]} = Some (b, h') ∧
    b_length b = 0 ∧ b_length b ≠ 2 ^ 32.
Proof.
  split; [apply four_gib_holds|]. split; [apply four_gib_length|].
  eexists _, _. split.
  - apply (construct_run _ _ _ four_gib);
      [apply four_gib_length|reflexivity|apply four_gib_holds].
  - split; [reflexivity|]. intros E. discriminate E.
Qed.

(** ** Slicing *)

(** What [c_buffer_slice] does in range: the test it makes adds the offset
    of the view itself to the range asked for. *)
Lemma slice_in_range (buffer : Buffer) (offset length : Z) :
  0 ≤ b_offset buffer → 0 ≤ offset → 0 ≤ length →
  b_offset buffer + offset + length ≤ b_length buffer →
  b_length buffer < 2 ^ 32 →
  c_buffer_slice buffer offset length
  = {| b_offset := b_offset buffer + offset;
       b_length := length;
       b_data := b_data buffer |}.
Proof.
  intros Ho Hoff Hlen Hin Hty. unfold c_buffer_slice, c_buffer_offset, c_buffer_length.
  rewrite (u64_small (_ + offset)) by lia.
  rewrite (u64_small (_ + length)) by lia.
  destruct (decide _) as [Hgt|_]; [lia|].
  by rewrite !u32_small by lia.
Qed.

(** What it does out of range, when the sum does not wrap around. *)
Lemma slice_out_of_range (buffer : Buffer) (offset length : Z) :
  0 ≤ b_offset buffer → 0 ≤ offset → 0 ≤ length →
  b_offset buffer + offset + length < 2 ^ 64 →
  offset + length > b_length buffer →
  c_buffer_slice buffer offset length = buffer.
Proof.
  intros Ho Hoff Hlen Hwrap Hout. unfold c_buffer_slice, c_buffer_offset, c_buffer_length.
  rewrite (u64_small (_ + offset)) by lia.
  rewrite (u64_small (_ + length)) by lia.
  destruct (decide _) as [_|Hle]; [done|lia].
Qed.

(** C1, at the input where the code departs from it.  The view
    [{offset 2, length 3}] of the storage [1 2 3 4 5] is what slicing the
    whole buffer at 2 for 3 bytes gives.  The range [1, 2] is inside it
    ([1 + 2 <= 3]), but [c_buffer_slice] returns the view unchanged, so
    that byte 0 of the result is byte 0 of the view and not its byte 1. *)
Theorem slice_of_slice_refused :
  let h : heap := {[ 1%positive := storage [1; 2; 3; 4; 5] ]} in
  let whole := {| b_offset := 0; b_length := 5; b_data := (1%positive, 0) |} in
  let b := {| b_offset := 2; b_length := 3; b_data := (1%positive, 0) |} in
  c_buffer_slice whole 2 3 = b ∧
  view_of h b [3; 4; 5] ∧
  1 + 2 ≤ c_buffer_length b ∧
  c_buffer_slice b 1 2 = b ∧
  c_buffer_offset (c_buffer_slice b 1 2) ≠ c_buffer_offset b + 1 ∧
  c_buffer_length (c_buffer_slice b 1 2) ≠ 2 ∧
  c_buffer_index (c_buffer_slice b 1 2) 0 h = Some (3, h) ∧
  c_buffer_index b (1 + 0) h = Some (4, h).
Proof.
  intros h whole b. split; [reflexivity|]. split.
  { repeat split; try (by vm_compute). concrete_holds. }
  split; [simpl; lia|]. split; [reflexivity|].
  split; [by vm_compute|]. split; [by vm_compute|].
  split; reflexivity.
Qed.

(** C7, at the input where the code departs from it.  The view
    [{offset 1, length 1}] of the storage [1 2 3 4 5] is what slicing the
    whole buffer at 1 for 1 byte gives.  For the range
    [2 ^ 64 - 2, 1], which is outside it, the sum that [c_buffer_slice] tests
    wraps around to 0, and the result is a view with offset [2 ^ 32 - 1]. *)
Theorem slice_range_check_wraps :
  let h : heap := {[ 1%positive := storage [1; 2; 3; 4; 5] ]} in
  let whole := {| b_offset := 0; b_length := 5; b_data := (1%positive, 0) |} in
  let b := {| b_offset := 1; b_length := 1; b_data := (1%positive, 0) |} in
  c_buffer_slice whole 1 1 = b ∧
  view_of h b [2] ∧
  (2 ^ 64 - 2) + 1 > c_buffer_length b ∧
  u64 ((2 ^ 64 - 2) + 1) > c_buffer_length b ∧
  c_buffer_slice b (2 ^ 64 - 2) 1
  = {| b_offset := 2 ^ 32 - 1; b_length := 1; b_data := (1%positive, 0) |} ∧
  c_buffer_slice b (2 ^ 64 - 2) 1 ≠ b.
Proof.
  intros h whole b. split; [reflexivity|]. split.
  { repeat split; try (by vm_compute). concrete_holds. }
  split; [by vm_compute|]. split; [by vm_compute|].
  split; [reflexivity|]. by vm_compute.
Qed.

(** ** Reference counting *)

Lemma le_value_le_bytes (k : nat) (v : Z) :
  le_value (le_bytes k v) = v mod 256 ^ Z.of_nat k.
Proof.
  revert v. induction k as [|k IH]; intros v.
  - simpl. by rewrite Z.mod_1_r.
  - simpl le_bytes. simpl le_value. rewrite IH.
    rewrite Nat2Z.inj_succ, Z.pow_succ_r by lia.
    rewrite Z.rem_mul_r by lia. done.
Qed.

Lemma decode_encode (order : byte_order) (v : Z) :
  decode64 order (encode64 order v) = u64 v.
Proof.
  destruct order; simpl; rewrite ?rev_involutive; apply (le_value_le_bytes 8).
Qed.

Lemma encode64_length (order : byte_order) (v : Z) :
  length (encode64 order v) = 8%nat.
Proof. destruct order; simpl; by rewrite ?length_rev. Qed.

Lemma encode64_zero (order : byte_order) : encode64 order 0 = replicate 8 0.
Proof. by destruct order. Qed.

Lemma holds_cons (h : heap) (p : ptr) (b : Z) (bs : list Z) :
  holds h p (b :: bs) →
  load p h = Some (b, h) ∧ holds h (ptr_add p 1) bs.
Proof.
  intros (blk & Hb & Hp & Hbs).
  destruct (drop (Z.to_nat p.2) blk) as [|c rest] eqn:Hdrop; [done|].
  simpl in Hbs. injection Hbs as -> Hrest.
  assert (blk !! Z.to_nat p.2 = Some (Val b)) as Hl.
  { by rewrite <- (Nat.add_0_r (Z.to_nat p.2)), <- lookup_drop, Hdrop. }
  split; [by apply (load_Some _ _ blk)|].
  exists blk. split; [done|]. split; [simpl; lia|]. simpl.
  replace (Z.to_nat (p.2 + 1)) with (S (Z.to_nat p.2)) by lia.
  apply drop_S in Hl. rewrite Hdrop in Hl. by injection Hl as <-.
Qed.

Lemma load_bytes_run (bs : list Z) :
  ∀ (p : ptr) (h : heap),
    holds h p bs → load_bytes (length bs) p h = Some (bs, h).
Proof.
  induction bs as [|b bs IH]; intros p h Hh; [done|].
  apply holds_cons in Hh as [Hl Hh]. simpl.
  rewrite (bind_Some _ _ _ _ _ Hl), (bind_Some _ _ _ _ _ (IH _ _ Hh)). done.
Qed.

Lemma store_bytes_run (bs : list Z) :
  ∀ (p : ptr) (h : heap) (blk : list cell),
    h !! p.1 = Some blk → 0 ≤ p.2 →
    p.2 + Z.of_nat (length bs) ≤ Z.of_nat (length blk) →
    store_bytes p bs h
    = Some (tt, <[p.1 := take (Z.to_nat p.2) blk ++ (Val <$> bs)
                         ++ drop (Z.to_nat p.2 + length bs) blk]> h).
Proof.
  induction bs as [|b bs IH]; intros p h blk Hb Hlo Hhi.
  - simpl. rewrite Nat.add_0_r, take_drop. by rewrite insert_id.
  - simpl in Hhi. simpl store_bytes.
    rewrite (bind_Some _ _ _ _ _ (store_Some h p blk b Hb ltac:(lia))).
    set (K := Z.to_nat p.2).
    rewrite (IH _ _ (<[K := Val b]> blk)); simpl.
    + rewrite insert_insert_eq.
      replace (Z.to_nat (p.2 + 1)) with (S K) by lia.
      rewrite (take_S_r _ _ (Val b)) by (apply list_lookup_insert_eq; lia).
      rewrite take_insert_ge, drop_insert_lt by lia.
      rewrite <- app_assoc. simpl.
      by replace (K + S (length bs))%nat with (S (K + length bs)) by lia.
    + by rewrite lookup_insert_eq.
    + lia.
    + rewrite length_insert. lia.
Qed.

Section RefcountProperties.
Context (order : byte_order) (DEBUG_REFCOUNT : bool).

Abbreviation counted := (counted order).

Lemma counted_holds (h : heap) (q : positive) (count : Z) (rest : list cell) :
  h !! q = Some (counted count rest) →
  holds h (q, 0) (encode64 order count).
Proof.
  intros Hq. exists (counted count rest). split; [done|]. split; [done|].
  unfold counted. simpl. rewrite drop_0.
  by rewrite take_app_length' by (by rewrite length_fmap).
Qed.

Lemma load64_run (h : heap) (q : positive) (count : Z) (rest : list cell) :
  h !! q = Some (counted count rest) →
  load64 order (q, 0) h = Some (u64 count, h).
Proof.
  intros Hq. unfold load64.
  pose proof (load_bytes_run _ _ _ (counted_holds _ _ _ _ Hq)) as Hl.
  rewrite encode64_length in Hl.
  rewrite (bind_Some _ _ _ _ _ Hl). unfold mret, M_ret.
  by rewrite decode_encode.
Qed.

Lemma store64_run (h : heap) (q : positive) (count v : Z) (rest : list cell) :
  h !! q = Some (counted count rest) →
  store64 order (q, 0) v h = Some (tt, <[q := counted v rest]> h).
Proof.
  intros Hq. unfold store64.
  rewrite (store_bytes_run _ (q, 0) _ _ Hq); simpl.
  - do 3 f_equal. unfold counted. rewrite !encode64_length.
    rewrite <- (encode64_length order count) at 1.
    by rewrite <- (length_fmap Val), drop_app_length.
  - done.
  - unfold counted. rewrite length_app, length_fmap, !encode64_length. lia.
Qed.

Lemma trace_refcount_run (h : heap) (buffer : Buffer) (q : positive)
    (count : Z) (rest : list cell) :
  b_data buffer = (q, 0) → h !! q = Some (counted count rest) →
  trace_refcount order DEBUG_REFCOUNT buffer h = Some (tt, h).
Proof.
  intros Hd Hq. unfold trace_refcount, c_buffer_refcount, ptr_add.
  destruct DEBUG_REFCOUNT; [|done]. rewrite Hd. simpl.
  by rewrite (bind_Some _ _ _ _ _ (load64_run _ _ _ _ Hq)).
Qed.

Lemma increment_run (h : heap) (buffer : Buffer) (q : positive)
    (count : Z) (rest : list cell) :
  b_data buffer = (q, 0) → h !! q = Some (counted count rest) →
  c_buffer_refcount_increment order DEBUG_REFCOUNT buffer h
  = Some (tt, <[q := counted (u64 (u64 count + 1)) rest]> h).
Proof.
  intros Hd Hq. unfold c_buffer_refcount_increment.
  rewrite (bind_Some _ _ _ _ _ (trace_refcount_run _ _ _ _ _ Hd Hq)).
  unfold c_buffer_refcount, ptr_add. rewrite Hd. simpl.
  rewrite (bind_Some _ _ _ _ _ (load64_run _ _ _ _ Hq)).
  by apply store64_run with count.
Qed.

Lemma decrement_run (h : heap) (buffer : Buffer) (q : positive)
    (count : Z) (rest : list cell) :
  b_data buffer = (q, 0) → h !! q = Some (counted count rest) →
  c_buffer_refcount_decrement order DEBUG_REFCOUNT buffer h
  = Some (tt, if decide (u64 count = 0) then delete q h
              else <[q := counted (u64 (u64 count - 1)) rest]> h).
Proof.
  intros Hd Hq. unfold c_buffer_refcount_decrement.
  rewrite (bind_Some _ _ _ _ _ (trace_refcount_run _ _ _ _ _ Hd Hq)).
  unfold c_buffer_refcount, ptr_add. rewrite Hd. simpl.
  rewrite (bind_Some _ _ _ _ _ (load64_run _ _ _ _ Hq)).
  rewrite (bind_Some _ _ _ _ _ (store64_run _ _ _ _ _ Hq)).
  destruct (decide (u64 count = 0)) as [_|_]; [|done].
  unfold c_buffer_destruct, free. rewrite Hd. simpl.
  by rewrite lookup_insert_eq, delete_insert_eq.
Qed.
End RefcountProperties.

Lemma storage_counted (order : byte_order) (bs : list Z) :
  storage bs = counted order 0 (Val <$> bs).
Proof. unfold storage, counted. by rewrite encode64_zero. Qed.

(** C4.  [c_buffer_refcount_decrement] on a view whose block has the
    counter [count]: the block is gone afterwards if and only if [count]
    was 0; otherwise the block is as it was, with the counter [count - 1];
    no other block changes.  So a buffer just built by
    [c_buffer_construct] is freed by one decrement (the heap is the one
    before the construction again), while increment and then decrement
    give back the heap as it was after the construction, with the counter 0
    and every byte readable. *)
Theorem refcount_decrement_protocol (order : byte_order)
    (DEBUG_REFCOUNT : bool) :
  (∀ (h : heap) (view : Buffer) (q : positive) (count : Z) (rest : list cell),
      b_data view = (q, 0) → 0 ≤ count < 2 ^ 64 →
      h !! q = Some (counted order count rest) →
      ∃ h' : heap,
        c_buffer_refcount_decrement order DEBUG_REFCOUNT view h
        = Some (tt, h') ∧
        (h' !! q = None ↔ count = 0) ∧
        (count = 0 → h' = delete q h) ∧
        (count ≠ 0 → h' = <[q := counted order (count - 1) rest]> h) ∧
        (∀ q', q' ≠ q → h' !! q' = h !! q'))
  ∧
  (∀ (h : heap) (data : ptr) (n : Z) (bytes : list Z),
      Z.of_nat (length bytes) = n →
      n + BUFFER_HEADER_WIDTH < 2 ^ 64 →
      holds h data bytes →
      ∃ (obj : positive) (b : Buffer) (h1 h2 : heap),
        c_buffer_construct n data h = Some (b, h1) ∧
        h !! obj = None ∧ b_data b = (obj, 0) ∧
        h1 !! obj = Some (storage bytes) ∧
        c_buffer_refcount_decrement order DEBUG_REFCOUNT b h1 = Some (tt, h) ∧
        c_buffer_refcount_increment order DEBUG_REFCOUNT b h1 = Some (tt, h2) ∧
        h2 !! obj = Some (counted order 1 (Val <$> bytes)) ∧
        c_buffer_refcount_decrement order DEBUG_REFCOUNT b h2 = Some (tt, h1) ∧
        load64 order (c_buffer_refcount b) h1 = Some (0, h1) ∧
        ∀ (j v : Z), 0 ≤ j < n → bytes !! Z.to_nat j = Some v →
                     c_buffer_index b j h1 = Some (v, h1)).
Proof.
  split.
  - intros h view q count rest Hd Hc Hq.
    eexists. split; [by apply (decrement_run _ _ _ _ _ _ _ Hd Hq)|].
    rewrite (u64_small count) by done.
    destruct (decide (count = 0)) as [->|Hne].
    + split; [by rewrite lookup_delete_eq|]. split; [done|].
      split; [done|]. intros q' Hq'. by apply lookup_delete_ne.
    + rewrite u64_small by lia. rewrite lookup_insert_eq.
      split; [done|]. split; [done|]. split; [done|].
      intros q' Hq'. by apply lookup_insert_ne.
  - intros h data n bytes Hlen Hn Hdata.
    pose proof (fresh_None h) as Hfresh. set (obj := fresh (dom h)) in *.
    set (b := {| b_offset := 0; b_length := u32 n; b_data := (obj, 0) |}).
    set (h1 := <[obj := storage bytes]> h).
    assert (h1 !! obj = Some (counted order 0 (Val <$> bytes))) as Hq1
      by (by unfold h1; rewrite lookup_insert_eq, (storage_counted order)).
    exists obj, b, h1, (<[obj := counted order 1 (Val <$> bytes)]> h1).
    split; [by apply construct_run|]. split; [done|]. split; [done|].
    split; [apply lookup_insert_eq|]. split.
    { rewrite (decrement_run order DEBUG_REFCOUNT h1 b obj 0 _ eq_refl Hq1). simpl.
      unfold h1. by rewrite delete_insert_id. }
    split; [by rewrite (increment_run order DEBUG_REFCOUNT h1 b obj 0 _ eq_refl Hq1)|].
    split; [apply lookup_insert_eq|]. split.
    { rewrite (decrement_run order DEBUG_REFCOUNT _ b obj 1 _ eq_refl
                 (lookup_insert_eq _ _ _)).
      simpl. rewrite insert_insert_eq. unfold h1 at 1.
      by rewrite insert_insert_eq, <- storage_counted. }
    split; [exact (load64_run order h1 obj 0 _ Hq1)|].
    intros j v Hj Hv. apply (index_run _ _ bytes); [|lia|done].
    apply storage_holds.
Qed.

Lemma refcount_decrement_protocol_witness :
  let h : heap := {[ 1%positive := [Val 0x41; Val 0x42; Val 0x43] ]} in
  let h2 : heap := {[ 2%positive := counted LittleEndian 2 [Val 7] ]} in
  let view := {| b_offset := 0; b_length := 1; b_data := (2%positive, 0) |} in
  holds h (1%positive, 0) [0x41; 0x42; 0x43] ∧
  c_buffer_refcount_decrement LittleEndian false view h2
  = Some (tt, {[ 2%positive := counted LittleEndian 1 [Val 7] ]}) ∧
  ∃ (b : Buffer) (h1 : heap),
    c_buffer_construct 3 (1%positive, 0) h = Some (b, h1) ∧
    c_buffer_refcount_decrement LittleEndian false b h1 = Some (tt, h).
Proof.
  intros h h2 view.
  assert (holds h (1%positive, 0) [0x41; 0x42; 0x43]) as Hh by concrete_holds.
  split; [exact Hh|].
  destruct (refcount_decrement_protocol LittleEndian false) as [Hdec Hfresh].
  split.
  - destruct (Hdec h2 view 2%positive 2 [Val 7] eq_refl ltac:(lia) eq_refl)
      as (h' & Hrun & _ & _ & Hh' & _).
    rewrite Hrun, Hh' by lia. reflexivity.
  - destruct (Hfresh h (1%positive, 0) 3 [0x41; 0x42; 0x43] eq_refl eq_refl Hh)
      as (obj & b & h1 & h3 & Hc & _ & _ & _ & Hd & _).
    exists b, h1. split; [exact Hc|exact Hd].
Defined.

(** ** From a null-terminated string *)

Lemma load_heap (p : ptr) (h h' : heap) (v : Z) :
  load p h = Some (v, h') → h' = h.
Proof.
  unfold load. destruct (cell_at h p) as [[|w]|]; [done| |done].
  by intros [= _ <-].
Qed.

Lemma load_outside (p : ptr) (h : heap) :
  Z.of_nat (block_size h p) ≤ p.2 → load p h = None.
Proof.
  unfold block_size, load, cell_at. intros Hsz.
  destruct (h !! p.1) as [blk|]; [|done]. simpl in Hsz.
  destruct (decide (0 ≤ p.2)); [|done].
  by rewrite lookup_ge_None_2 by lia.
Qed.

(** The fuel that [c_buffer_construct_from_null_terminated_string] gives
    the scan is all the scan can use: with that much or more, the result
    is the same, since a scan that long has left the block. *)
Lemma scan_terminator_fuel (data_nt : ptr) (h : heap) (f1 : nat) :
  ∀ (f2 : nat) (n : Z),
    0 ≤ data_nt.2 → 0 ≤ n →
    Z.of_nat (block_size h data_nt) ≤ n + Z.of_nat f1 →
    Z.of_nat (block_size h data_nt) ≤ n + Z.of_nat f2 →
    n + Z.of_nat f1 < 2 ^ 64 → n + Z.of_nat f2 < 2 ^ 64 →
    scan_terminator f1 data_nt n h = scan_terminator f2 data_nt n h.
Proof.
  assert (∀ f n, 0 ≤ data_nt.2 → 0 ≤ n → n + 1 < 2 ^ 64 →
                 Z.of_nat (block_size h data_nt) ≤ n →
                 scan_terminator (S f) data_nt n h = None) as Hout.
  { intros f n Hp Hn Hw Hsz. simpl. rewrite u64_small by lia.
    rewrite bind_unfold, load_outside; [done|].
    change (block_size h (ptr_add data_nt (n + 1))) with (block_size h data_nt).
    simpl. lia. }
  induction f1 as [|f1 IH]; intros [|f2] n Hp Hn H1 H2 Hw1 Hw2; [done| | |].
  - symmetry. apply Hout; lia.
  - apply Hout; lia.
  - simpl. rewrite u64_small by lia. rewrite !bind_unfold.
    destruct (load (ptr_add data_nt (n + 1)) h) as [[c h']|] eqn:Hl; [|done].
    apply load_heap in Hl as ->.
    destruct (decide (c ≠ 0)); [|done]. apply IH; lia.
Qed.

(** The scan on a text whose bytes after the first are not zero: it stops
    at the terminator. *)
Lemma scan_terminator_run (data_nt : ptr) (h : heap) (text : list Z)
    (fuel : nat) :
  ∀ n : Z,
    holds h data_nt (text ++ [0]) →
    (∀ (i : nat) (c : Z), n < Z.of_nat i → text !! i = Some c → c ≠ 0) →
    0 ≤ n < Z.of_nat (length text) →
    Z.of_nat (length text) < 2 ^ 64 →
    Z.of_nat (length text) - n ≤ Z.of_nat fuel →
    scan_terminator fuel data_nt n h = Some (Z.of_nat (length text), h).
Proof.
  induction fuel as [|fuel IH]; intros n Hh Hnz Hn Hlen Hfuel; [lia|].
  simpl. rewrite u64_small by lia.
  destruct (decide (n + 1 = Z.of_nat (length text))) as [Hend|Hmore].
  - rewrite (bind_Some _ _ _ h 0).
    + destruct (decide (0 ≠ 0)); [done|]. unfold mret, M_ret. by rewrite Hend.
    + apply (holds_lookup _ _ (text ++ [0])); [done|lia|].
      rewrite Hend, Nat2Z.id. by apply list_lookup_middle.
  - destruct (text !! Z.to_nat (n + 1)) as [c|] eqn:Hc.
    2: { apply lookup_ge_None in Hc. lia. }
    rewrite (bind_Some _ _ _ h c).
    + destruct (decide (c ≠ 0)) as [_|Hz].
      * apply IH; [done| |lia|done|lia].
        intros i c' Hi. apply Hnz. lia.
      * exfalso. apply Hz. apply (Hnz (Z.to_nat (n + 1))); [lia|done].
    + apply (holds_lookup _ _ (text ++ [0])); [done|lia|].
      by apply lookup_app_l_Some.
Qed.

Lemma holds_block_size (h : heap) (p : ptr) (bs : list Z) :
  holds h p bs → bs ≠ [] →
  (Z.to_nat p.2 + length bs ≤ block_size h p)%nat.
Proof.
  intros (blk & Hb & Hp & Hbs) Hne. unfold block_size. rewrite Hb. simpl.
  assert (0 < length bs)%nat by (destruct bs; [done|simpl; lia]).
  apply (f_equal length) in Hbs.
  rewrite length_take, length_drop, length_fmap in Hbs. lia.
Qed.

Lemma holds_app_l (h : heap) (p : ptr) (bs bs' : list Z) :
  holds h p (bs ++ bs') → holds h p bs.
Proof.
  intros (blk & Hb & Hp & Hbs). exists blk. split; [done|]. split; [done|].
  apply (f_equal (take (length bs))) in Hbs.
  rewrite take_take, length_app, fmap_app in Hbs.
  rewrite take_app_length' in Hbs by (by rewrite length_fmap).
  by replace (length bs `min` (length bs + length bs'))%nat
    with (length bs) in Hbs by lia.
Qed.

(** What [c_buffer_construct_from_null_terminated_string] does on a text
    that is not empty: the buffer holds the bytes before the terminator. *)
Lemma from_null_terminated_run (h : heap) (data_nt : ptr) (text : list Z) :
  holds h data_nt (text ++ [0]) →
  text ≠ [] → 0 ∉ text →
  Z.of_nat (length text) + 8 < 2 ^ 64 →
  c_buffer_construct_from_null_terminated_string data_nt h
  = Some ({| b_offset := 0; b_length := u32 (Z.of_nat (length text));
             b_data := (fresh (dom h), 0) |},
          <[fresh (dom h) := storage text]> h).
Proof.
  intros Hh Hne Hnz Hlen.
  unfold c_buffer_construct_from_null_terminated_string.
  pose proof (holds_block_size _ _ _ Hh ltac:(by destruct text)) as Hsz.
  rewrite length_app in Hsz. simpl in Hsz.
  rewrite (bind_Some _ _ _ h (Z.of_nat (length text))).
  - apply construct_run; [done|lia|by eapply holds_app_l].
  - apply (scan_terminator_run _ _ text); [done| | |lia|lia].
    + intros i c _ Hc ->. apply Hnz. by eapply list_elem_of_lookup_2.
    + destruct text; [done|]. simpl. lia.
Qed.

(** C2, at the inputs where the code departs from it: texts whose first
    byte is the terminator.  The scan [while (data_nt[++n]);] looks at
    byte 1 first and never at byte 0.  On the five zero bytes that
    [c_buffer_show_Char 0] passes, the result is a buffer of length 1 that
    holds the terminator; on [00 41 00] it is a buffer of length 2; on an
    object that is the terminator alone, the scan reads past its end. *)
Theorem from_text_starting_with_terminator :
  let zeros : heap := {[ 1%positive := Val <$> [0; 0; 0; 0; 0] ]} in
  let text : heap := {[ 1%positive := Val <$> [0; 0x41; 0] ]} in
  let alone : heap := {[ 1%positive := Val <$> [0] ]} in
  holds zeros (1%positive, 0) ([] ++ [0]) ∧
  c_buffer_construct_from_null_terminated_string (1%positive, 0) zeros
  = Some ({| b_offset := 0; b_length := 1; b_data := (2%positive, 0) |},
          <[2%positive := storage [0]]> zeros) ∧
  holds text (1%positive, 0) ([] ++ [0]) ∧
  c_buffer_construct_from_null_terminated_string (1%positive, 0) text
  = Some ({| b_offset := 0; b_length := 2; b_data := (2%positive, 0) |},
          <[2%positive := storage [0; 0x41]]> text) ∧
  holds alone (1%positive, 0) ([] ++ [0]) ∧
  c_buffer_construct_from_null_terminated_string (1%positive, 0) alone
  = None ∧
  c_buffer_show_Char 0 ∅
  = Some ({| b_offset := 0; b_length := 1; b_data := (2%positive, 0) |},
          {[ 2%positive := storage [0] ]}).
Proof.
  intros zeros text alone.
  split; [concrete_holds|]. split; [by vm_compute|].
  split; [concrete_holds|]. split; [by vm_compute|].
  split; [concrete_holds|]. split; by vm_compute.
Qed.

(** ** Decoding a character *)

(** The classes of leading bytes, as ranges of byte values. *)
Lemma sequence_width_ranges (fb : Z) :
  is_byte fb →
  sequence_width fb
  = if decide (fb < 0x80) then Some 1
    else if decide (fb < 0xC0) then None
    else if decide (fb < 0xE0) then Some 2
    else if decide (fb < 0xF0) then Some 3
    else if decide (fb < 0xF8) then Some 4
    else None.
Proof.
  intros Hb.
  assert (Forall (λ fb, sequence_width fb
                        = if decide (fb < 0x80) then Some 1
                          else if decide (fb < 0xC0) then None
                          else if decide (fb < 0xE0) then Some 2
                          else if decide (fb < 0xF0) then Some 3
                          else if decide (fb < 0xF8) then Some 4
                          else None) (seqZ 0 256)) as Hall.
  { apply (bool_decide_unpack _). by vm_compute. }
  rewrite Forall_forall in Hall. apply Hall, elem_of_seqZ.
  unfold is_byte in Hb. lia.
Qed.

Lemma view_of_load (h : heap) (b : Buffer) (bs : list Z) (j v : Z) :
  view_of h b bs → 0 ≤ j → bs !! Z.to_nat j = Some v →
  load (ptr_add (c_buffer_bytes b) j) h = Some (v, h).
Proof. intros (_ & _ & _ & _ & Hh). by apply holds_lookup. Qed.

(** C6.  Let the byte at [i < length(b)] of a view [b] be a leading byte
    that announces a sequence of [width] bytes, 2, 3 or 4.  If [i + width]
    exceeds the length of [b], [c_buffer_character_at b i] returns 0. *)
Theorem character_at_truncated (h : heap) (b : Buffer) (bs : list Z)
    (i first_byte width : Z) :
  view_of h b bs →
  0 ≤ i < c_buffer_length b →
  bs !! Z.to_nat i = Some first_byte →
  sequence_width first_byte = Some width →
  2 ≤ width →
  i + width > c_buffer_length b →
  c_buffer_character_at b i h = Some (0, h).
Proof.
  intros Hv Hi Hfb Hw H2 Htrunc. unfold c_buffer_character_at.
  rewrite (bind_Some _ _ _ _ _ (view_of_load _ _ _ _ _ Hv (proj1 Hi) Hfb)).
  destruct Hv as (_ & _ & Hlen & _). unfold c_buffer_length in *.
  unfold sequence_width in Hw.
  destruct (decide (first_byte < 128)); [injection Hw as <-; lia|].
  destruct (decide (Z.land first_byte 224 = 192)).
  { injection Hw as <-. rewrite u64_small by lia.
    by destruct (decide (i + 1 < b_length b)); [lia|]. }
  destruct (decide (Z.land first_byte 240 = 224)).
  { injection Hw as <-. rewrite (u64_small (i + 2)) by lia.
    by destruct (decide (i + 2 < b_length b)); [lia|]. }
  destruct (decide (Z.land first_byte 248 = 240)); [|done].
  injection Hw as <-. rewrite (u64_small (i + 3)) by lia.
  by destruct (decide (i + 3 < b_length b)); [lia|].
Qed.

Lemma character_at_truncated_witness :
  let h : heap := {[ 1%positive := storage [0x41; 0xE2; 0x82] ]} in
  let b := {| b_offset := 0; b_length := 3; b_data := (1%positive, 0) |} in
  view_of h b [0x41; 0xE2; 0x82] ∧
  sequence_width 0xE2 = Some 3 ∧
  c_buffer_character_at b 1 h = Some (0, h).
Proof.
  intros h b.
  assert (view_of h b [0x41; 0xE2; 0x82]) as Hv.
  { repeat split; try (by vm_compute). concrete_holds. }
  split; [exact Hv|]. split; [reflexivity|].
  apply (character_at_truncated h b [0x41; 0xE2; 0x82] 1 0xE2 3 Hv);
    try reflexivity; by vm_compute.
Defined.

(** C10.  Let the byte at [i < length(b)] of a view [b] be a continuation
    byte, [0x80] to [0xBF], or a byte from [0xF8] up.  Then
    [c_buffer_character_at b i] returns 0. *)
Theorem character_at_no_leading_byte (h : heap) (b : Buffer) (bs : list Z)
    (i first_byte : Z) :
  view_of h b bs →
  0 ≤ i < c_buffer_length b →
  bs !! Z.to_nat i = Some first_byte →
  0x80 ≤ first_byte ≤ 0xBF ∨ 0xF8 ≤ first_byte ≤ 0xFF →
  c_buffer_character_at b i h = Some (0, h).
Proof.
  intros Hv Hi Hfb Hrange. unfold c_buffer_character_at.
  rewrite (bind_Some _ _ _ _ _ (view_of_load _ _ _ _ _ Hv (proj1 Hi) Hfb)).
  assert (sequence_width first_byte = None) as Hw.
  { rewrite sequence_width_ranges by (unfold is_byte; lia).
    repeat (destruct (decide _); try lia); done. }
  unfold sequence_width in Hw.
  repeat (destruct (decide _) in Hw |- *; try done).
Qed.

Lemma character_at_no_leading_byte_witness :
  let h : heap := {[ 1%positive := storage [0x41; 0x82; 0xFF] ]} in
  let b := {| b_offset := 0; b_length := 3; b_data := (1%positive, 0) |} in
  view_of h b [0x41; 0x82; 0xFF] ∧
  c_buffer_character_at b 1 h = Some (0, h) ∧
  c_buffer_character_at b 2 h = Some (0, h).
Proof.
  intros h b.
  assert (view_of h b [0x41; 0x82; 0xFF]) as Hv.
  { repeat split; try (by vm_compute). concrete_holds. }
  split; [exact Hv|].
  split.
  - apply (character_at_no_leading_byte h b [0x41; 0x82; 0xFF] 1 0x82 Hv);
      [by vm_compute|reflexivity|left; by vm_compute].
  - apply (character_at_no_leading_byte h b [0x41; 0x82; 0xFF] 2 0xFF Hv);
      [by vm_compute|reflexivity|right; by vm_compute].
Defined.

(** What [c_buffer_character_at] returns when the whole sequence is inside
    the view, one lemma for each width. *)

Ltac width_cases Hw :=
  unfold sequence_width in Hw;
  repeat match type of Hw with
         | context [decide ?P] =>
             destruct (decide P) in Hw |- *; try discriminate Hw
         end.

Lemma character_at_width1 (h : heap) (b : Buffer) (bs : list Z) (i fb : Z) :
  view_of h b bs → 0 ≤ i →
  bs !! Z.to_nat i = Some fb → fb < 0x80 →
  c_buffer_character_at b i h = Some (u32 fb, h).
Proof.
  intros Hv Hi Hfb Hw. unfold c_buffer_character_at.
  rewrite (bind_Some _ _ _ _ _ (view_of_load _ _ _ _ _ Hv Hi Hfb)).
  by destruct (decide (fb < 128)).
Qed.

Lemma character_at_width2 (h : heap) (b : Buffer) (bs : list Z)
    (i fb b1 : Z) :
  view_of h b bs → 0 ≤ i → i + 1 < c_buffer_length b →
  bs !! Z.to_nat i = Some fb →
  bs !! Z.to_nat (i + 1) = Some b1 →
  sequence_width fb = Some 2 →
  c_buffer_character_at b i h
  = Some (u32 (Z.lor ((Z.land fb 0x1F) ≪ 6) (Z.land b1 0x3F)), h).
Proof.
  intros Hv Hi Hin Hfb H1 Hw. unfold c_buffer_character_at.
  rewrite (bind_Some _ _ _ _ _ (view_of_load _ _ _ _ _ Hv Hi Hfb)).
  pose proof Hv as (_ & _ & Hlen & _). unfold c_buffer_length in *.
  width_cases Hw.
  rewrite !u64_small by lia.
  destruct (decide (i + 1 < b_length b)); [|done].
  by rewrite (bind_Some _ _ _ _ _ (view_of_load _ _ _ (i + 1) _ Hv ltac:(lia) H1)).
Qed.

Lemma character_at_width3 (h : heap) (b : Buffer) (bs : list Z)
    (i fb b1 b2 : Z) :
  view_of h b bs → 0 ≤ i → i + 2 < c_buffer_length b →
  bs !! Z.to_nat i = Some fb →
  bs !! Z.to_nat (i + 1) = Some b1 →
  bs !! Z.to_nat (i + 2) = Some b2 →
  sequence_width fb = Some 3 →
  c_buffer_character_at b i h
  = Some (u32 (Z.lor (Z.lor ((Z.land fb 0x0F) ≪ 12) ((Z.land b1 0x3F) ≪ 6))
                 (Z.land b2 0x3F)), h).
Proof.
  intros Hv Hi Hin Hfb H1 H2 Hw. unfold c_buffer_character_at.
  rewrite (bind_Some _ _ _ _ _ (view_of_load _ _ _ _ _ Hv Hi Hfb)).
  pose proof Hv as (_ & _ & Hlen & _). unfold c_buffer_length in *.
  width_cases Hw.
  rewrite !u64_small by lia.
  destruct (decide (i + 2 < b_length b)); [|done].
  rewrite (bind_Some _ _ _ _ _ (view_of_load _ _ _ (i + 1) _ Hv ltac:(lia) H1)).
  by rewrite (bind_Some _ _ _ _ _ (view_of_load _ _ _ (i + 2) _ Hv ltac:(lia) H2)).
Qed.

Lemma character_at_width4 (h : heap) (b : Buffer) (bs : list Z)
    (i fb b1 b2 b3 : Z) :
  view_of h b bs → 0 ≤ i → i + 3 < c_buffer_length b →
  bs !! Z.to_nat i = Some fb →
  bs !! Z.to_nat (i + 1) = Some b1 →
  bs !! Z.to_nat (i + 2) = Some b2 →
  bs !! Z.to_nat (i + 3) = Some b3 →
  sequence_width fb = Some 4 →
  c_buffer_character_at b i h
  = Some (u32 (Z.lor (Z.lor (Z.lor ((Z.land fb 0x07) ≪ 18)
                               ((Z.land b1 0x3F) ≪ 12))
                        ((Z.land b2 0x3F) ≪ 6))
                 (Z.land b3 0x3F)), h).
Proof.
  intros Hv Hi Hin Hfb H1 H2 H3 Hw. unfold c_buffer_character_at.
  rewrite (bind_Some _ _ _ _ _ (view_of_load _ _ _ _ _ Hv Hi Hfb)).
  pose proof Hv as (_ & _ & Hlen & _). unfold c_buffer_length in *.
  width_cases Hw.
  rewrite !u64_small by lia.
  destruct (decide (i + 3 < b_length b)); [|done].
  rewrite (bind_Some _ _ _ _ _ (view_of_load _ _ _ (i + 1) _ Hv ltac:(lia) H1)).
  rewrite (bind_Some _ _ _ _ _ (view_of_load _ _ _ (i + 2) _ Hv ltac:(lia) H2)).
  by rewrite (bind_Some _ _ _ _ _ (view_of_load _ _ _ (i + 3) _ Hv ltac:(lia) H3)).
Qed.

(** ** Formatting a character *)

Lemma store_local (h : heap) (p : positive) (blk : list cell) (j v : Z) :
  0 ≤ j < Z.of_nat (length blk) →
  store (ptr_add (p, 0) j) v (<[p := blk]> h)
  = Some (tt, <[p := <[Z.to_nat j := Val v]> blk]> h).
Proof.
  intros Hj. rewrite (store_Some _ _ blk); simpl;
    [|apply lookup_insert_eq|lia].
  by rewrite insert_insert_eq.
Qed.

Lemma show_Char_stores (h : heap) (p : positive) (n : Z) :
  (if decide (n < 0x80) then
     store (ptr_add (p, 0) 0) (u8 n)
   else if decide (n < 0x800) then
     _ ← store (ptr_add (p, 0) 0) (u8 (Z.lor 0xC0 (n ≫ 6)));
     store (ptr_add (p, 0) 1) (u8 (Z.lor 0x80 (Z.land n 0x3F)))
   else if decide (n < 0x10000) then
     _ ← store (ptr_add (p, 0) 0) (u8 (Z.lor 0xE0 (n ≫ 12)));
     _ ← store (ptr_add (p, 0) 1) (u8 (Z.lor 0x80 (Z.land (n ≫ 6) 0x3F)));
     store (ptr_add (p, 0) 2) (u8 (Z.lor 0x80 (Z.land n 0x3F)))
   else if decide (n < 0x110000) then
     _ ← store (ptr_add (p, 0) 0) (u8 (Z.lor 0xF0 (n ≫ 18)));
     _ ← store (ptr_add (p, 0) 1) (u8 (Z.lor 0x80 (Z.land (n ≫ 12) 0x3F)));
     _ ← store (ptr_add (p, 0) 2) (u8 (Z.lor 0x80 (Z.land (n ≫ 6) 0x3F)));
     store (ptr_add (p, 0) 3) (u8 (Z.lor 0x80 (Z.land n 0x3F)))
   else mret tt) (<[p := Val <$> [0; 0; 0; 0; 0]]> h)
  = Some (tt, <[p := Val <$> show_Char_str n]> h).
Proof.
  unfold show_Char_str.
  repeat (destruct (decide _));
    repeat (erewrite bind_Some; [|by apply store_local]);
    try (by rewrite store_local by done).
  done.
Qed.

(** [c_buffer_show_Char n] when the bytes written are [text] and then a
    zero: the result is a new buffer with the bytes [text], and the local
    array is gone. *)
Lemma show_Char_run (h : heap) (n : Z) (text pad : list Z) :
  show_Char_str n = text ++ 0 :: pad →
  text ≠ [] → 0 ∉ text →
  ∃ q : positive,
    h !! q = None ∧
    c_buffer_show_Char n h
    = Some ({| b_offset := 0; b_length := Z.of_nat (length text);
               b_data := (q, 0) |},
            <[q := storage text]> h).
Proof.
  intros Hstr Hne Hnz.
  assert (length text ≤ 4)%nat as Hlen.
  { apply (f_equal length) in Hstr. rewrite length_app in Hstr. simpl in Hstr.
    assert (length (show_Char_str n) = 5%nat)
      by (unfold show_Char_str; repeat (destruct (decide _)); done).
    lia. }
  pose proof (fresh_None h) as Hp. set (p := fresh (dom h)) in *.
  set (h1 := <[p := Val <$> show_Char_str n]> h).
  pose proof (fresh_None h1) as Hq. set (q := fresh (dom h1)) in *.
  assert (p ≠ q) as Hpq.
  { intros E. rewrite <- E in Hq. unfold h1 in Hq.
    by rewrite lookup_insert_eq in Hq. }
  exists q. split.
  { unfold h1 in Hq. by rewrite lookup_insert_ne in Hq. }
  unfold c_buffer_show_Char.
  rewrite (bind_Some _ _ _ (<[p := Val <$> [0; 0; 0; 0; 0]]> h) (p, 0)) by done.
  rewrite (bind_Some _ _ _ _ _ (show_Char_stores h p n)). fold h1.
  assert (holds h1 (p, 0) (text ++ [0])) as Hstr1.
  { exists (Val <$> show_Char_str n). split; [apply lookup_insert_eq|].
    split; [done|]. simpl. rewrite drop_0, Hstr.
    rewrite (cons_middle 0 text pad), app_assoc, fmap_app.
    by rewrite take_app_length' by (by rewrite length_fmap). }
  rewrite (bind_Some _ _ _ _ _ (from_null_terminated_run h1 (p, 0) text Hstr1
                                  Hne Hnz ltac:(lia))).
  fold q.
  rewrite (bind_Some _ _ _ (delete p (<[q := storage text]> h1)) tt).
  2: { apply (free_run _ _ (Val <$> show_Char_str n)).
       rewrite lookup_insert_ne by done. apply lookup_insert_eq. }
  unfold mret, M_ret. rewrite u32_small by lia. do 2 f_equal.
  rewrite delete_insert_ne by done. unfold h1. by rewrite delete_insert_id.
Qed.

Lemma storage_view (h : heap) (q : positive) (bs : list Z) :
  Z.of_nat (length bs) < 2 ^ 32 →
  view_of (<[q := storage bs]> h)
    {| b_offset := 0; b_length := Z.of_nat (length bs); b_data := (q, 0) |} bs.
Proof.
  intros Hlen. repeat split; simpl; try done. apply storage_holds.
Qed.

(** C5.  For each of the code points [0x41], [0x3B1], [0x20AC] and
    [0x1F600], in every heap, [c_buffer_show_Char] returns a buffer, and
    [c_buffer_character_at] of that buffer at 0 returns the code point. *)
Theorem show_Char_character_at_roundtrip (h : heap) :
  Forall (λ c : Z,
            ∃ (b : Buffer) (h' : heap),
              c_buffer_show_Char c h = Some (b, h') ∧
              c_buffer_character_at b 0 h' = Some (c, h'))
         [0x41; 0x3B1; 0x20AC; 0x1F600].
Proof.
  repeat apply Forall_cons_2; [| | | |apply Forall_nil_2].
  - destruct (show_Char_run h 0x41 [0x41] [0; 0; 0]) as (q & _ & Hrun);
      [done|done|by apply (bool_decide_unpack _)|].
    eexists _, _. split; [exact Hrun|].
    apply (character_at_width1 _ _ [0x41] 0 0x41); try reflexivity.
    apply (storage_view h q [0x41]). reflexivity.
  - destruct (show_Char_run h 0x3B1 [0xCE; 0xB1] [0; 0]) as (q & _ & Hrun);
      [done|done|by apply (bool_decide_unpack _)|].
    eexists _, _. split; [exact Hrun|].
    apply (character_at_width2 _ _ [0xCE; 0xB1] 0 0xCE 0xB1); try reflexivity.
    apply (storage_view h q [0xCE; 0xB1]). reflexivity.
  - destruct (show_Char_run h 0x20AC [0xE2; 0x82; 0xAC] [0]) as (q & _ & Hrun);
      [done|done|by apply (bool_decide_unpack _)|].
    eexists _, _. split; [exact Hrun|].
    apply (character_at_width3 _ _ [0xE2; 0x82; 0xAC] 0 0xE2 0x82 0xAC);
      try reflexivity.
    apply (storage_view h q [0xE2; 0x82; 0xAC]). reflexivity.
  - destruct (show_Char_run h 0x1F600 [0xF0; 0x9F; 0x98; 0x80] [])
      as (q & _ & Hrun); [done|done|by apply (bool_decide_unpack _)|].
    eexists _, _. split; [exact Hrun|].
    apply (character_at_width4 _ _ [0xF0; 0x9F; 0x98; 0x80] 0
             0xF0 0x9F 0x98 0x80); try reflexivity.
    apply (storage_view h q [0xF0; 0x9F; 0x98; 0x80]). reflexivity.
Qed.

(** ** Concatenation *)

Lemma for_upto_zero {St : Type} (body : Z → St → M St) (s : St) (h : heap) :
  for_upto 0 body s h = Some (s, h).
Proof. reflexivity. Qed.

Lemma construct_zeroed_run (h : heap) (n : Z) :
  0 ≤ n → n + 8 < 2 ^ 64 →
  ∃ q : positive,
    h !! q = None ∧
    c_buffer_construct_zeroed n h
    = Some ({| b_offset := 0; b_length := u32 n; b_data := (q, 0) |},
            <[q := storage (replicate (Z.to_nat n) 0)]> h).
Proof.
  intros Hn Hmax.
  pose proof (fresh_None h) as Hp. set (p := fresh (dom h)) in *.
  set (zeros := replicate (Z.to_nat n) 0).
  set (h1 := <[p := Val <$> zeros]> h).
  pose proof (fresh_None h1) as Hq. set (q := fresh (dom h1)) in *.
  assert (p ≠ q) as Hpq.
  { intros E. rewrite <- E in Hq. unfold h1 in Hq.
    by rewrite lookup_insert_eq in Hq. }
  exists q. split.
  { unfold h1 in Hq. by rewrite lookup_insert_ne in Hq. }
  unfold c_buffer_construct_zeroed.
  rewrite (bind_Some _ _ _ h1 (p, 0)).
  2: { unfold calloc, h1, zeros. fold p. by rewrite Z.mul_1_r, fmap_replicate. }
  rewrite (bind_Some _ _ _ h1 tt) by done.
  assert (Z.of_nat (length zeros) = n) as Hlen
    by (unfold zeros; rewrite length_replicate; lia).
  assert (holds h1 (p, 0) zeros) as Hzeros.
  { exists (Val <$> zeros). split; [apply lookup_insert_eq|]. split; [done|].
    simpl. rewrite drop_0. by rewrite take_ge by (by rewrite length_fmap). }
  rewrite (bind_Some _ _ _ _ _ (construct_run h1 (p, 0) n zeros Hlen Hmax Hzeros)).
  fold q.
  rewrite (bind_Some _ _ _ (delete p (<[q := storage zeros]> h1)) tt).
  2: { apply (free_run _ _ (Val <$> zeros)).
       rewrite lookup_insert_ne by done. apply lookup_insert_eq. }
  unfold mret, M_ret. do 2 f_equal.
  rewrite delete_insert_ne by done. unfold h1. by rewrite delete_insert_id.
Qed.

Lemma view_of_agree (h h' : heap) (b : Buffer) (bs : list Z) :
  h' !! (b_data b).1 = h !! (b_data b).1 → view_of h b bs → view_of h' b bs.
Proof.
  intros E (? & ? & ? & ? & Hh). do 4 (split; [done|]).
  by apply (holds_agree h).
Qed.

Lemma view_of_live (h : heap) (b : Buffer) (bs : list Z) :
  view_of h b bs → is_Some (h !! (b_data b).1).
Proof. intros (_ & _ & _ & _ & blk & Hb & _). by exists blk. Qed.

(** What [c_buffer_concatenate] does when the two lengths add up to less
    than [2 ^ 32]. *)
Lemma concatenate_run (h : heap) (left right : Buffer) (ls rs : list Z) :
  view_of h left ls → view_of h right rs →
  b_length left + b_length right < 2 ^ 32 →
  ∃ q : positive,
    h !! q = None ∧
    c_buffer_concatenate left right h
    = Some ({| b_offset := 0; b_length := b_length left + b_length right;
               b_data := (q, 0) |},
            <[q := storage (ls ++ rs)]> h).
Proof.
  intros Hl Hr Hsum.
  pose proof Hl as (_ & Hll & _). pose proof Hr as (_ & Hrl & _).
  set (n := b_length left + b_length right) in *.
  assert (0 ≤ n) by lia.
  destruct (construct_zeroed_run h n) as (q & Hq & Hz); [done|lia|].
  exists q. split; [done|].
  unfold c_buffer_concatenate, c_buffer_length. fold n.
  rewrite (u64_small n) by lia. rewrite (bind_Some _ _ _ _ _ Hz).
  rewrite (u32_small n) by lia. simpl b_length.
  set (h1 := <[q := storage (replicate (Z.to_nat n) 0)]> h).
  assert (Z.to_nat n = length (ls ++ rs)) as Hn
    by (rewrite length_app; lia).
  assert (∀ b bs, view_of h b bs → (b_data b).1 ≠ q) as Hother.
  { intros b bs [blk Hb]%view_of_live E. rewrite E in Hb. congruence. }
  unfold for_upto. rewrite Hn.
  erewrite bind_Some; cycle 1.
  { apply (for_loop_fill q 8 _ (ls ++ rs) 0 h1
             (storage (replicate (Z.to_nat n) 0)));
      [apply lookup_insert_eq|done| |].
    { rewrite storage_length, length_replicate. lia. }
    intros k v h' blk' Hk Hq' Hlen' Hagree. rewrite Z.add_0_l.
    assert (k < length (ls ++ rs))%nat as Hklt by (by eapply lookup_lt_Some).
    assert (∀ b bs, view_of h b bs → view_of h' b bs) as Hkeep.
    { intros b bs Hb. apply (view_of_agree h); [|done].
      rewrite Hagree by (by eapply Hother). unfold h1.
      apply lookup_insert_ne. intros E. by eapply Hother. }
    rewrite (bind_Some _ _ _ h' v).
    - rewrite (store_Some h' _ blk'); simpl; [done|done|].
      unfold BUFFER_HEADER_WIDTH.
      rewrite Hlen', storage_length, length_replicate. lia.
    - destruct (decide (Z.of_nat k < b_length left)) as [Hlt|Hge].
      + apply (view_of_load _ _ ls); [by apply Hkeep|lia|].
        rewrite <- Hk, Nat2Z.id. symmetry. apply lookup_app_l. lia.
      + rewrite u64_small by lia.
        apply (view_of_load _ _ rs); [by apply Hkeep|lia|].
        rewrite <- Hk. rewrite lookup_app_r by lia. f_equal. lia. }
  unfold mret, M_ret, h1. rewrite insert_insert_eq. do 3 f_equal.
  rewrite drop_ge, app_nil_r by (rewrite storage_length, length_replicate; lia).
  unfold storage. by rewrite take_app_length' by done.
Qed.

(** C9 (as the code has it).  For every pair of views [a] and [b] whose
    lengths add up to less than [2 ^ 32], [c_buffer_concatenate a b] returns
    a view of a block that did not exist before, also when a side is empty;
    its length is [length(a) + length(b)], its first [length(a)] bytes are
    the bytes of [a] in order and the [length(b)] bytes after them are the
    bytes of [b] in order. *)
Theorem concatenate_bytes (h : heap) (a b : Buffer) (xs ys : list Z) :
  view_of h a xs → view_of h b ys →
  c_buffer_length a + c_buffer_length b < 2 ^ 32 →
  ∃ (q : positive) (r : Buffer) (h' : heap),
    c_buffer_concatenate a b h = Some (r, h') ∧
    h !! q = None ∧ b_data r = (q, 0) ∧
    h' = <[q := storage (xs ++ ys)]> h ∧
    c_buffer_length r = c_buffer_length a + c_buffer_length b ∧
    view_of h' r (xs ++ ys) ∧
    (∀ (j v : Z), 0 ≤ j < c_buffer_length a → xs !! Z.to_nat j = Some v →
                  c_buffer_index r j h' = Some (v, h')) ∧
    (∀ (j v : Z), 0 ≤ j < c_buffer_length b → ys !! Z.to_nat j = Some v →
                  c_buffer_index r (c_buffer_length a + j) h' = Some (v, h')).
Proof.
  intros Ha Hb Hsum. unfold c_buffer_length in *.
  destruct (concatenate_run h a b xs ys Ha Hb Hsum) as (q & Hq & Hrun).
  pose proof Ha as (_ & Hla & _). pose proof Hb as (_ & Hlb & _).
  eexists q, _, _. split; [exact Hrun|]. do 4 (split; [done|]).
  assert (view_of (<[q := storage (xs ++ ys)]> h)
            {| b_offset := 0; b_length := b_length a + b_length b;
               b_data := (q, 0) |} (xs ++ ys)) as Hr.
  { replace (b_length a + b_length b) with (Z.of_nat (length (xs ++ ys)))
      by (rewrite length_app; lia).
    apply storage_view. rewrite length_app. lia. }
  split; [exact Hr|]. destruct Hr as (_ & _ & _ & _ & Hr). split.
  - intros j v Hj Hv. apply (index_run _ _ (xs ++ ys)); [done|lia|].
    by apply lookup_app_l_Some.
  - intros j v Hj Hv. apply (index_run _ _ (xs ++ ys)); [done|lia|].
    rewrite lookup_app_r by lia. rewrite <- Hv. f_equal. lia.
Qed.

Lemma concatenate_bytes_witness :
  let h : heap := {[ 1%positive := storage [1; 2; 3; 4; 5] ]} in
  let a := {| b_offset := 1; b_length := 2; b_data := (1%positive, 0) |} in
  let b := {| b_offset := 5; b_length := 0; b_data := (1%positive, 0) |} in
  view_of h a [2; 3] ∧ view_of h b [] ∧
  ∃ (q : positive) (r : Buffer) (h' : heap),
    c_buffer_concatenate a b h = Some (r, h') ∧
    h !! q = None ∧ b_data r = (q, 0) ∧
    c_buffer_length r = 2 ∧
    c_buffer_index r 1 h' = Some (3, h').
Proof.
  intros h a b.
  assert (view_of h a [2; 3]) as Ha.
  { repeat split; try (by vm_compute). concrete_holds. }
  assert (view_of h b []) as Hb.
  { repeat split; try (by vm_compute). concrete_holds. }
  split; [exact Ha|]. split; [exact Hb|].
  destruct (concatenate_bytes h a b [2; 3] [] Ha Hb eq_refl)
    as (q & r & h' & Hrun & Hq & Hd & _ & Hlen & _ & Hidx & _).
  exists q, r, h'. split; [exact Hrun|]. split; [exact Hq|].
  split; [exact Hd|]. split; [exact Hlen|].
  apply Hidx; [by vm_compute|reflexivity].
Defined.

(** Two views of [2 ^ 31] bytes each: their concatenation has length 0. *)
Lemma concatenate_wraps (zs : list Z) :
  Z.of_nat (length zs) = 2 ^ 31 →
  let h : heap := {[ 1%positive := storage zs ]} in
  let a := {| b_offset := 0; b_length := 2 ^ 31; b_data := (1%positive, 0) |} in
  view_of h a zs ∧
  ∃ (r : Buffer) (h' : heap),
    c_buffer_concatenate a a h = Some (r, h') ∧
    c_buffer_length r = 0 ∧
    c_buffer_length r ≠ c_buffer_length a + c_buffer_length a.
Proof.
  intros Hlen h a. split.
  { split; [done|]. split; [by rewrite Hlen|]. split; [done|]. split; [done|].
    unfold h. rewrite <- (insert_empty (M := gmap positive)).
    apply (storage_holds ∅ 1%positive (2 ^ 31) zs). }
  destruct (construct_zeroed_run h (2 ^ 32)) as (q & _ & Hz);
    [discriminate|reflexivity|].
  change (u32 (2 ^ 32)) with 0 in Hz.
  exists {| b_offset := 0; b_length := 0; b_data := (q, 0) |}.
  eexists. split.
  - unfold c_buffer_concatenate.
    change (u64 (c_buffer_length a + c_buffer_length a)) with (2 ^ 32).
    rewrite bind_unfold, Hz.
    exact (bind_Some _ _ _ _ tt (for_upto_zero _ _ _)).
  - split; [reflexivity|]. intros E. discriminate E.
Qed.

Lemma two_gib_length : Z.of_nat (length two_gib) = 2 ^ 31.
Proof. unfold two_gib. rewrite length_replicate. by apply Z2Nat.id. Qed.

(** C9 as it is stated fails: the concatenation of two views of [2 ^ 31]
    bytes each has length 0, not [2 ^ 32]. *)
Lemma concatenate_length_wraps :
  let h : heap := {[ 1%positive := storage two_gib ]} in
  let a := {| b_offset := 0; b_length := 2 ^ 31; b_data := (1%positive, 0) |} in
  view_of h a two_gib ∧
  ∃ (r : Buffer) (h' : heap),
    c_buffer_concatenate a a h = Some (r, h') ∧
    c_buffer_length r = 0 ∧
    c_buffer_length r ≠ c_buffer_length a + c_buffer_length a.
Proof. exact (concatenate_wraps two_gib two_gib_length). Qed.

(** ** To a null-terminated string *)

Lemma escaped_cons (b : Z) (bs : list Z) :
  escaped (b :: bs) = escape_zero b ++ escaped bs.
Proof. reflexivity. Qed.

Lemma zero_count_cons (b : Z) (bs : list Z) :
  zero_count (b :: bs)
  = ((if decide (b = 0%Z) then 1 else 0) + zero_count bs)%nat.
Proof.
  unfold zero_count. rewrite filter_cons. by destruct (decide (b = 0)).
Qed.

Lemma escaped_length (bs : list Z) :
  length (escaped bs) = (length bs + zero_count bs)%nat.
Proof.
  induction bs as [|b bs IH]; [done|].
  rewrite escaped_cons, length_app, IH, zero_count_cons. unfold escape_zero.
  destruct (decide (b = 0)); simpl; lia.
Qed.

Lemma escaped_no_zero (bs : list Z) : 0 ∉ escaped bs.
Proof.
  induction bs as [|b bs IH]; [by apply not_elem_of_nil|].
  rewrite escaped_cons, elem_of_app. intros [Hin|Hin]; [|done].
  unfold escape_zero in Hin. destruct (decide (b = 0)).
  - apply elem_of_cons in Hin as [?|Hin]; [done|].
    apply elem_of_cons in Hin as [?|Hin]; [done|]. by apply elem_of_nil in Hin.
  - apply elem_of_cons in Hin as [?|Hin]; [done|]. by apply elem_of_nil in Hin.
Qed.

(** The first loop counts the zero bytes. *)
Lemma count_loop (bytes : ptr) (h : heap) (rest : list Z) :
  ∀ (j zr : Z),
    (∀ (k : nat) (v : Z), rest !! k = Some v →
                          load (ptr_add bytes (j + Z.of_nat k)) h = Some (v, h)) →
    0 ≤ zr → zr + Z.of_nat (length rest) < 2 ^ 64 →
    for_loop (length rest) j (λ j zero_runes,
        v ← load (ptr_add bytes j);
        mret (u64 (zero_runes + (if decide (v = 0) then 1 else 0)))) zr h
    = Some (zr + Z.of_nat (zero_count rest), h).
Proof.
  induction rest as [|b rest IH]; intros j zr Hload Hzr Hmax.
  - simpl. unfold mret, M_ret. by rewrite Z.add_0_r.
  - simpl in Hmax. simpl for_loop. rewrite bind_unfold.
    pose proof (Hload 0%nat b eq_refl) as H0. rewrite Z.add_0_r in H0.
    rewrite (bind_Some _ _ _ _ _ H0). unfold mret at 1, M_ret at 1.
    rewrite u64_small by (destruct (decide (b = 0)); lia).
    rewrite IH.
    + rewrite zero_count_cons. do 2 f_equal.
      destruct (decide (b = 0)); lia.
    + intros k v Hk. specialize (Hload (S k) v Hk).
      by replace (j + 1 + Z.of_nat k) with (j + Z.of_nat (S k)) by lia.
    + destruct (decide (b = 0)); lia.
    + destruct (decide (b = 0)); lia.
Qed.

Lemma store_at (h : heap) (q : positive) (blk : list cell) (j v : Z) :
  h !! q = Some blk → 0 ≤ j < Z.of_nat (length blk) →
  store (ptr_add (q, 0) j) v h
  = Some (tt, <[q := <[Z.to_nat j := Val v]> blk]> h).
Proof. intros Hq Hj. by rewrite (store_Some _ _ blk). Qed.

Lemma load_at (h : heap) (q : positive) (blk : list cell) (j v : Z) :
  h !! q = Some blk → 0 ≤ j → blk !! Z.to_nat j = Some (Val v) →
  load (ptr_add (q, 0) j) h = Some (v, h).
Proof. intros Hq Hj Hv. by apply (load_Some _ _ blk). Qed.

(** A block written up to some byte: the bytes [out], then [room] bytes not
    yet written. *)
Lemma written_push (out : list Z) (room : nat) (v : Z) :
  <[length out := Val v]> ((Val <$> out) ++ replicate (S room) Uninit)
  = (Val <$> (out ++ [v])) ++ replicate room Uninit.
Proof.
  rewrite <- (length_fmap Val out), <- (Nat.add_0_r (length (Val <$> out))).
  rewrite insert_app_r. simpl. by rewrite fmap_app, <- app_assoc.
Qed.

Lemma written_last (out : list Z) (tl : list cell) (v c : Z) :
  <[length out := Val c]> ((Val <$> (out ++ [v])) ++ tl)
  = (Val <$> (out ++ [c])) ++ tl.
Proof.
  rewrite !fmap_app, <- !app_assoc.
  rewrite <- (length_fmap Val out), <- (Nat.add_0_r (length (Val <$> out))).
  by rewrite insert_app_r.
Qed.

Lemma written_lookup_last (out : list Z) (tl : list cell) (v : Z) :
  ((Val <$> (out ++ [v])) ++ tl) !! length out = Some (Val v).
Proof.
  rewrite fmap_app, <- app_assoc.
  rewrite <- (length_fmap Val out). by apply list_lookup_middle.
Qed.

(** One iteration of the second loop: the byte [v] is copied, and
    replaced by [0xC0 0x80] when it is zero. *)
Lemma escape_step (bytes : ptr) (q : positive) (h : heap) (out : list Z)
    (room : nat) (j v : Z) :
  h !! q = Some ((Val <$> out) ++ replicate room Uninit) →
  load (ptr_add bytes j) h = Some (v, h) →
  (length (escape_zero v) ≤ room)%nat →
  Z.of_nat (length out) + Z.of_nat room < 2 ^ 64 →
  (v ← load (ptr_add bytes j);
   _ ← store (ptr_add (q, 0) (Z.of_nat (length out))) v;
   let i := u64 (Z.of_nat (length out) + 1) in
   c ← load (ptr_add (q, 0) (u64 (i - 1)));
   if decide (c = 0) then
     _ ← store (ptr_add (q, 0) (u64 (i - 1))) 0xc0;
     _ ← store (ptr_add (q, 0) i) 0x80;
     mret (u64 (i + 1))
   else mret i) h
  = Some (Z.of_nat (length (out ++ escape_zero v)),
          <[q := (Val <$> (out ++ escape_zero v))
                 ++ replicate (room - length (escape_zero v)) Uninit]> h).
Proof.
  intros Hq Hv Hroom Hmax.
  assert (0 < room)%nat as Hpos
    by (unfold escape_zero in Hroom; destruct (decide (v = 0)); simpl in *; lia).
  destruct room as [|room]; [lia|].
  rewrite (bind_Some _ _ _ _ _ Hv).
  erewrite bind_Some; cycle 1.
  { apply (store_at h q _ _ v Hq).
    rewrite length_app, length_fmap, length_replicate. lia. }
  rewrite Nat2Z.id, written_push. cbv zeta.
  rewrite !(u64_small (Z.of_nat (length out) + 1)) by lia.
  replace (Z.of_nat (length out) + 1 - 1) with (Z.of_nat (length out)) by lia.
  rewrite !(u64_small (Z.of_nat (length out))) by lia.
  set (h1 := <[q := _]> h).
  rewrite (bind_Some _ _ _ h1 v).
  2: { apply (load_at _ _ _ _ _ (lookup_insert_eq _ _ _)); [lia|].
       rewrite Nat2Z.id. apply written_lookup_last. }
  unfold escape_zero in *. destruct (decide (v = 0)) as [->|Hnz].
  - simpl in Hroom. destruct room as [|room]; [lia|].
    erewrite bind_Some; cycle 1.
    { apply (store_at h1 q _ _ 0xc0 (lookup_insert_eq _ _ _)).
      rewrite length_app, length_fmap, length_app, length_replicate.
      simpl. lia. }
    rewrite Nat2Z.id, written_last. unfold h1. rewrite insert_insert_eq.
    erewrite bind_Some; cycle 1.
    { apply (store_at _ q _ _ 0x80 (lookup_insert_eq _ _ _)).
      rewrite length_app, length_fmap, length_app, length_replicate.
      simpl. lia. }
    replace (Z.to_nat (Z.of_nat (length out) + 1)) with (length (out ++ [192]))
      by (rewrite length_app; simpl; lia).
    rewrite written_push, insert_insert_eq. unfold mret, M_ret.
    rewrite u64_small by lia. rewrite <- app_assoc. simpl.
    rewrite Nat.sub_0_r. do 2 f_equal. rewrite length_app. simpl. lia.
  - unfold mret, M_ret. simpl. rewrite Nat.sub_0_r. do 2 f_equal.
    rewrite length_app. simpl. lia.
Qed.

(** The second loop writes the escaped bytes one after the other. *)
Lemma escape_loop (bytes : ptr) (q : positive) (rest : list Z) :
  ∀ (j : Z) (out : list Z) (room : nat) (h : heap),
    h !! q = Some ((Val <$> out) ++ replicate room Uninit) →
    (∀ (k : nat) (v : Z) (h' : heap),
        rest !! k = Some v →
        (∀ q', q' ≠ q → h' !! q' = h !! q') →
        load (ptr_add bytes (j + Z.of_nat k)) h' = Some (v, h')) →
    (length (escaped rest) ≤ room)%nat →
    Z.of_nat (length out) + Z.of_nat room < 2 ^ 64 →
    for_loop (length rest) j (λ j i,
        v ← load (ptr_add bytes j);
        _ ← store (ptr_add (q, 0) i) v;
        let i := u64 (i + 1) in
        c ← load (ptr_add (q, 0) (u64 (i - 1)));
        if decide (c = 0) then
          _ ← store (ptr_add (q, 0) (u64 (i - 1))) 0xc0;
          _ ← store (ptr_add (q, 0) i) 0x80;
          mret (u64 (i + 1))
        else mret i) (Z.of_nat (length out)) h
    = Some (Z.of_nat (length (out ++ escaped rest)),
            <[q := (Val <$> (out ++ escaped rest))
                   ++ replicate (room - length (escaped rest)) Uninit]> h).
Proof.
  induction rest as [|v rest IH]; intros j out room h Hq Hload Hroom Hmax.
  - simpl. unfold mret, M_ret. rewrite app_nil_r, Nat.sub_0_r.
    by rewrite insert_id.
  - rewrite escaped_cons, length_app in Hroom. simpl for_loop.
    erewrite bind_Some; cycle 1.
    { apply (escape_step bytes q h out room j v Hq); [|lia|done].
      rewrite <- (Z.add_0_r j). by apply (Hload 0%nat). }
    rewrite (IH (j + 1) (out ++ escape_zero v)
               (room - length (escape_zero v))%nat).
    + rewrite insert_insert_eq, escaped_cons, <- app_assoc. do 4 f_equal.
      rewrite length_app. f_equal. lia.
    + apply lookup_insert_eq.
    + intros k w h' Hk Hagree.
      replace (j + 1 + Z.of_nat k) with (j + Z.of_nat (S k)) by lia.
      apply Hload; [done|]. intros q' Hne.
      rewrite Hagree by done. by apply lookup_insert_ne.
    + lia.
    + rewrite length_app. lia.
Qed.

(** C8.  For every view of the bytes [bs], in every heap,
    [c_buffer_as_null_terminated_string] returns the start of a block that
    did not exist before and that holds the escaped bytes of [bs], in
    order, and then one zero byte: each zero byte of [bs] is the two bytes
    [0xC0 0x80] in it and every other byte is itself.  The block has as many
    bytes as the view, plus the number of zero bytes of the view, plus one,
    and its last byte is the only zero in it. *)
Theorem as_null_terminated_string_escapes (h : heap) (view : Buffer)
    (bs : list Z) :
  view_of h view bs →
  ∃ (q : positive) (h' : heap),
    c_buffer_as_null_terminated_string view h = Some ((q, 0), h') ∧
    h !! q = None ∧
    h' = <[q := Val <$> (escaped bs ++ [0])]> h ∧
    Z.of_nat (length (escaped bs ++ [0]))
    = c_buffer_length view + Z.of_nat (zero_count bs) + 1 ∧
    0 ∉ escaped bs.
Proof.
  intros Hv. pose proof Hv as (Hoff & Hlen & Hmax & Hd & Hh).
  pose proof (fresh_None h) as Hq. set (q := fresh (dom h)) in *.
  exists q. eexists. split; [|split; [done|split; [done|split]]].
  - unfold c_buffer_as_null_terminated_string, c_buffer_length, for_upto.
    rewrite Hlen, Nat2Z.id.
    erewrite bind_Some; cycle 1.
    { apply (count_loop (c_buffer_bytes view) h bs 0 0); [|lia|lia].
      intros k v Hk. apply (holds_lookup _ _ bs); [done|lia|].
      by rewrite Z.add_0_l, Nat2Z.id. }
    rewrite Z.add_0_l.
    pose proof (length_filter (λ b, b = 0) bs) as Hzc.
    fold (zero_count bs) in Hzc.
    set (n := Z.of_nat (length bs) + Z.of_nat (zero_count bs)).
    rewrite (u64_small n) by (unfold n; lia).
    rewrite (u64_small (n + 1)) by (unfold n; lia).
    rewrite Z.mul_1_r, (u64_small (n + 1)) by (unfold n; lia).
    set (room := Z.to_nat (n + 1)).
    set (h1 := <[q := replicate room Uninit]> h).
    rewrite (bind_Some _ _ _ h1 (q, 0)) by done.
    rewrite (bind_Some _ _ _ h1 tt) by done.
    assert (length (escaped bs) = Z.to_nat n) as Hesc
      by (rewrite escaped_length; unfold n; lia).
    assert ((c_buffer_bytes view).1 ≠ q) as Hne.
    { destruct Hh as (blk & Hb & _). intros E. rewrite E in Hb. congruence. }
    erewrite bind_Some; cycle 1.
    { apply (escape_loop (c_buffer_bytes view) q bs 0 [] room h1).
      - apply lookup_insert_eq.
      - intros k v h' Hk Hagree.
        apply (holds_lookup _ _ bs); [|lia|by rewrite Z.add_0_l, Nat2Z.id].
        apply (holds_agree h); [|done]. rewrite Hagree by done.
        by apply lookup_insert_ne.
      - unfold room. lia.
      - unfold room, n. simpl. lia. }
    simpl app.
    replace (room - length (escaped bs))%nat with 1%nat by (unfold room; lia).
    erewrite bind_Some; cycle 1.
    { apply (store_at _ q _ _ 0 (lookup_insert_eq _ _ _)).
      rewrite length_app, length_fmap, Hesc. simpl. lia. }
    unfold mret, M_ret, h1. rewrite !insert_insert_eq. do 3 f_equal.
    rewrite <- Hesc, written_push. apply app_nil_r.
  - rewrite length_app, escaped_length. unfold c_buffer_length. simpl. lia.
  - apply escaped_no_zero.
Qed.

Lemma as_null_terminated_string_escapes_witness :
  let h : heap := {[ 1%positive := storage [0x41; 0; 0x42; 0] ]} in
  let view := {| b_offset := 1; b_length := 3; b_data := (1%positive, 0) |} in
  view_of h view [0; 0x42; 0] ∧
  ∃ (q : positive) (h' : heap),
    c_buffer_as_null_terminated_string view h = Some ((q, 0), h') ∧
    h' = <[q := Val <$> [0xC0; 0x80; 0x42; 0xC0; 0x80; 0]]> h.
Proof.
  intros h view.
  assert (view_of h view [0; 0x42; 0]) as Hv.
  { repeat split; try (by vm_compute). concrete_holds. }
  split; [exact Hv|].
  destruct (as_null_terminated_string_escapes h view [0; 0x42; 0] Hv)
    as (q & h' & Hrun & _ & Hh' & _).
  exists q, h'. split; [exact Hrun|exact Hh'].
Defined.

(** * Further properties *)

(** ** Writing a byte *)








(** ** Slices are views of the same storage *)

Lemma holds_sub (h : heap) (q : positive) (o : Z) (bs : list Z) (k l : nat) :
  holds h (q, o) bs → (k + l ≤ length bs)%nat →
  holds h (q, o + Z.of_nat k) (take l (drop k bs)).
Proof.
  intros (blk & Hq & Ho & Hbs) Hkl. simpl in *.
  exists blk. split; [done|]. split; [simpl; lia|]. simpl.
  rewrite length_take_le by (rewrite length_drop; lia).
  rewrite fmap_take, fmap_drop, <- Hbs.
  rewrite (take_drop_commute (take _ _)), take_take.
  replace ((k + l) `min` length bs)%nat with (k + l)%nat by lia.
  rewrite <- take_drop_commute, drop_drop. do 2 f_equal. lia.
Qed.

Lemma slice_data (b : Buffer) (offset length : Z) :
  b_data (c_buffer_slice b offset length) = b_data b.
Proof. unfold c_buffer_slice. by destruct (decide _). Qed.

Lemma slice_view (h : heap) (b : Buffer) (bs : list Z) (offset length : Z) :
  view_of h b bs → 0 ≤ offset → 0 ≤ length →
  b_offset b + offset + length ≤ b_length b →
  view_of h (c_buffer_slice b offset length)
    (take (Z.to_nat length) (drop (Z.to_nat offset) bs)).
Proof.
  intros Hv Hoff Hlen Hin. pose proof Hv as (Ho & Hl & Hmax & Hd & Hh).
  rewrite slice_in_range by (done || lia).
  destruct b as [off len [q o]]. simpl in *. subst o.
  split; [simpl; lia|]. split.
  { simpl. rewrite length_take_le by (rewrite length_drop; lia). lia. }
  do 2 (split; [simpl; lia || done|]).
  pose proof (holds_sub h q _ bs (Z.to_nat offset) (Z.to_nat length) Hh
                ltac:(lia)) as Hs.
  unfold c_buffer_bytes, ptr_add in *. simpl in *.
  by replace (0 + BUFFER_HEADER_WIDTH + (off + offset))
    with (0 + BUFFER_HEADER_WIDTH + off + Z.of_nat (Z.to_nat offset)) by lia.
Qed.

(** X2.  What [c_buffer_slice] returns, when the sum it tests does not wrap
    around: a view of the same storage, of the bytes asked for when
    [offset(b) + offset + length <= length(b)], and [b] itself otherwise. *)
Theorem slice_is_view (h : heap) (b : Buffer) (bs : list Z)
    (offset length : Z) :
  view_of h b bs → 0 ≤ offset → 0 ≤ length →
  b_offset b + offset + length < 2 ^ 64 →
  b_data (c_buffer_slice b offset length) = b_data b ∧
  (b_offset b + offset + length ≤ b_length b →
     c_buffer_offset (c_buffer_slice b offset length) = b_offset b + offset ∧
     c_buffer_length (c_buffer_slice b offset length) = length ∧
     view_of h (c_buffer_slice b offset length)
       (take (Z.to_nat length) (drop (Z.to_nat offset) bs))) ∧
  (b_offset b + offset + length > b_length b →
     c_buffer_slice b offset length = b).
Proof.
  intros Hv Hoff Hlen Hwrap. pose proof Hv as (Ho & Hl & Hmax & _).
  split; [apply slice_data|]. split.
  - intros Hin.
    rewrite (slice_in_range b offset length) by (done || lia).
    do 2 (split; [done|]).
    rewrite <- (slice_in_range b offset length) by (done || lia).
    by apply slice_view.
  - intros Hout. unfold c_buffer_slice, c_buffer_offset, c_buffer_length.
    rewrite (u64_small (_ + offset)) by lia.
    rewrite (u64_small (_ + length)) by lia.
    destruct (decide _) as [_|Hle]; [done|lia].
Qed.

Lemma slice_is_view_witness :
  let h : heap := {[ 1%positive := storage [1; 2; 3; 4; 5] ]} in
  let b := {| b_offset := 0; b_length := 5; b_data := (1%positive, 0) |} in
  view_of h b [1; 2; 3; 4; 5] ∧
  view_of h (c_buffer_slice b 1 3) [2; 3; 4] ∧
  c_buffer_slice b 3 5 = b.
Proof.
  intros h b.
  assert (view_of h b [1; 2; 3; 4; 5]) as Hv.
  { repeat split; try (by vm_compute). concrete_holds. }
  split; [exact Hv|]. split.
  - destruct (slice_is_view h b [1; 2; 3; 4; 5] 1 3 Hv ltac:(by vm_compute)
                ltac:(by vm_compute) ltac:(by vm_compute)) as (_ & Hin & _).
    apply Hin. by vm_compute.
  - destruct (slice_is_view h b [1; 2; 3; 4; 5] 3 5 Hv ltac:(by vm_compute)
                ltac:(by vm_compute) ltac:(by vm_compute)) as (_ & _ & Hout).
    apply Hout. by vm_compute.
Defined.




(** ** The other constructors *)

Lemma zeros_lookup (n : nat) (j : Z) :
  0 ≤ j < Z.of_nat n → replicate n 0 !! Z.to_nat j = Some 0.
Proof. intros Hj. apply lookup_replicate_2. lia. Qed.

(** X4.  [c_buffer_construct_zeroed n] returns a view with offset 0 of a block
    that did not exist before: a counter that reads 0 and [n] zero bytes.
    The array of zeros it copies from is freed again, so that this block is
    all the heap gains.  The length of the view is [n mod 2 ^ 32]. *)
Theorem construct_zeroed_view (order : byte_order) (h : heap) (n : Z) :
  0 ≤ n → n + BUFFER_HEADER_WIDTH < 2 ^ 64 →
  ∃ (q : positive) (b : Buffer) (h' : heap),
    c_buffer_construct_zeroed n h = Some (b, h') ∧
    h !! q = None ∧
    h' = <[q := storage (replicate (Z.to_nat n) 0)]> h ∧
    b_data b = (q, 0) ∧ b_offset b = 0 ∧ b_length b = n mod 2 ^ 32 ∧
    load64 order (c_buffer_refcount b) h' = Some (0, h') ∧
    ∀ j : Z, 0 ≤ j < n → c_buffer_index b j h' = Some (0, h').
Proof.
  intros Hn Hmax.
  destruct (construct_zeroed_run h n Hn Hmax) as (q & Hq & Hrun).
  eexists q, _, _. split; [exact Hrun|]. do 5 (split; [done|]). split.
  - apply (load64_run order _ q 0 (Val <$> replicate (Z.to_nat n) 0)).
    by rewrite lookup_insert_eq, (storage_counted order).
  - intros j Hj. apply (index_run _ _ (replicate (Z.to_nat n) 0));
      [apply storage_holds|lia|apply zeros_lookup; lia].
Qed.

Lemma construct_zeroed_view_witness :
  ∃ (b : Buffer) (h' : heap),
    c_buffer_construct_zeroed 3 ∅ = Some (b, h') ∧
    b_length b = 3 ∧
    c_buffer_index b 2 h' = Some (0, h').
Proof.
  destruct (construct_zeroed_view LittleEndian ∅ 3 ltac:(by vm_compute)
              ltac:(by vm_compute))
    as (q & b & h' & Hrun & _ & _ & _ & _ & Hlen & _ & Hidx).
  exists b, h'. split; [exact Hrun|]. split; [exact Hlen|].
  apply Hidx. by vm_compute.
Defined.




(** ** Copies *)




(** ** Equality *)

Lemma eq_loop_run (h : heap) (left right : Buffer) (ls : list Z) :
  ∀ (rs : list Z) (j : Z),
    length ls = length rs →
    (∀ (k : nat) (v : Z), ls !! k = Some v →
       load (ptr_add (c_buffer_bytes left) (j + Z.of_nat k)) h = Some (v, h)) →
    (∀ (k : nat) (v : Z), rs !! k = Some v →
       load (ptr_add (c_buffer_bytes right) (j + Z.of_nat k)) h = Some (v, h)) →
    eq_loop (length ls) j left right h
    = Some (if decide (ls = rs) then BooleanTrue else BooleanFalse, h).
Proof.
  induction ls as [|l ls IH]; intros [|r rs] j Hlen Hl Hr; try done.
  simpl in Hlen. injection Hlen as Hlen. simpl eq_loop.
  pose proof (Hl 0%nat l eq_refl) as Hl0. rewrite Z.add_0_r in Hl0.
  pose proof (Hr 0%nat r eq_refl) as Hr0. rewrite Z.add_0_r in Hr0.
  rewrite (bind_Some _ _ _ _ _ Hl0), (bind_Some _ _ _ _ _ Hr0).
  destruct (decide (l ≠ r)) as [Hne|Heq].
  - destruct (decide (l :: ls = r :: rs)) as [[=]|_]; done.
  - assert (l = r) as -> by (by destruct (decide (l = r))).
    rewrite (IH rs (j + 1) Hlen).
    + destruct (decide (ls = rs)) as [->|Hne].
      * by destruct (decide (r :: rs = r :: rs)).
      * destruct (decide (r :: ls = r :: rs)) as [[=]|_]; done.
    + intros k v Hk. specialize (Hl (S k) v Hk).
      by replace (j + 1 + Z.of_nat k) with (j + Z.of_nat (S k)) by lia.
    + intros k v Hk. specialize (Hr (S k) v Hk).
      by replace (j + 1 + Z.of_nat k) with (j + Z.of_nat (S k)) by lia.
Qed.

Lemma eq_run (h : heap) (left right : Buffer) (ls rs : list Z) :
  view_of h left ls → view_of h right rs →
  c_buffer_eq left right h
  = Some (if decide (ls = rs) then BooleanTrue else BooleanFalse, h).
Proof.
  intros Hl Hr. pose proof Hl as (_ & Hll & _). pose proof Hr as (_ & Hrl & _).
  unfold c_buffer_eq, c_buffer_length.
  destruct (decide (b_length left ≠ b_length right)) as [Hne|Heq].
  - destruct (decide (ls = rs)) as [->|_]; [|done]. congruence.
  - assert (length ls = length rs) as Hlen
      by (destruct (decide (b_length left = b_length right)); [lia|done]).
    rewrite Hll, Nat2Z.id. apply eq_loop_run; [done| |].
    + intros k v Hk. apply (view_of_load _ _ ls); [done|lia|].
      by rewrite Z.add_0_l, Nat2Z.id.
    + intros k v Hk. apply (view_of_load _ _ rs); [done|lia|].
      by rewrite Z.add_0_l, Nat2Z.id.
Qed.

(** X7.  [c_buffer_eq] on two views, wherever they lie in whatever storage,
    returns [BooleanTrue] if they hold the same bytes and [BooleanFalse] if
    they do not (two empty views are equal), and changes nothing.  It gives
    the same answer with its arguments exchanged, and [BooleanTrue] on a
    view and itself. *)
Theorem eq_decides_bytes (h : heap) (left right : Buffer) (ls rs : list Z) :
  view_of h left ls → view_of h right rs →
  c_buffer_eq left right h
  = Some (if decide (ls = rs) then BooleanTrue else BooleanFalse, h) ∧
  c_buffer_eq right left h = c_buffer_eq left right h ∧
  c_buffer_eq left left h = Some (BooleanTrue, h).
Proof.
  intros Hl Hr. split; [by apply eq_run|]. split.
  - rewrite (eq_run h right left rs ls Hr Hl), (eq_run h left right ls rs Hl Hr).
    destruct (decide (ls = rs)) as [->|Hne].
    + by destruct (decide (rs = rs)).
    + destruct (decide (rs = ls)) as [->|_]; done.
  - rewrite (eq_run h left left ls ls Hl Hl).
    by destruct (decide (ls = ls)).
Qed.

Lemma eq_decides_bytes_witness :
  let h : heap := {[ 1%positive := storage [7; 8; 7; 8; 9] ]} in
  let l := {| b_offset := 0; b_length := 2; b_data := (1%positive, 0) |} in
  let r := {| b_offset := 2; b_length := 2; b_data := (1%positive, 0) |} in
  let s := {| b_offset := 3; b_length := 2; b_data := (1%positive, 0) |} in
  view_of h l [7; 8] ∧ view_of h r [7; 8] ∧ view_of h s [8; 9] ∧
  c_buffer_eq l r h = Some (BooleanTrue, h) ∧
  c_buffer_eq l s h = Some (BooleanFalse, h).
Proof.
  intros h l r s.
  assert (view_of h l [7; 8]) as Hl.
  { repeat split; try (by vm_compute). concrete_holds. }
  assert (view_of h r [7; 8]) as Hr.
  { repeat split; try (by vm_compute). concrete_holds. }
  assert (view_of h s [8; 9]) as Hs.
  { repeat split; try (by vm_compute). concrete_holds. }
  do 3 (split; [assumption|]). split.
  - exact (proj1 (eq_decides_bytes h l r [7; 8] [7; 8] Hl Hr)).
  - exact (proj1 (eq_decides_bytes h l s [7; 8] [8; 9] Hl Hs)).
Defined.



(** ** Substrings *)

Lemma substring_run (h : heap) (str : Buffer) (bs : list Z) (start end_ : Z) :
  view_of h str bs → 0 ≤ start ≤ end_ → end_ ≤ b_length str →
  ∃ q : positive,
    h !! q = None ∧
    c_buffer_substring str start end_ h
    = Some ({| b_offset := 0; b_length := end_ - start; b_data := (q, 0) |},
            <[q := storage (take (Z.to_nat (end_ - start))
                              (drop (Z.to_nat start) bs))]> h).
Proof.
  intros Hv Hse Hend. pose proof Hv as (_ & Hlen & Hmax & _).
  set (n := end_ - start). assert (0 ≤ n) by (unfold n; lia).
  destruct (construct_zeroed_run h n) as (q & Hq & Hz); [done|unfold n; lia|].
  exists q. split; [done|].
  unfold c_buffer_substring, c_buffer_length. fold n.
  rewrite (u64_small n) by (unfold n; lia). rewrite (bind_Some _ _ _ _ _ Hz).
  rewrite (u32_small n) by (unfold n; lia). simpl b_length.
  set (sub := take (Z.to_nat n) (drop (Z.to_nat start) bs)).
  assert (length sub = Z.to_nat n) as Hsub.
  { unfold sub. rewrite length_take_le; [done|]. rewrite length_drop.
    unfold n. lia. }
  set (h1 := <[q := storage (replicate (Z.to_nat n) 0)]> h).
  assert ((b_data str).1 ≠ q) as Hne.
  { destruct (view_of_live _ _ _ Hv) as [blk Hb]. intros E.
    rewrite E in Hb. congruence. }
  unfold for_upto. rewrite <- Hsub.
  erewrite bind_Some; cycle 1.
  { apply (for_loop_fill q 8 _ sub 0 h1 (storage (replicate (Z.to_nat n) 0)));
      [apply lookup_insert_eq|done| |].
    { rewrite storage_length, length_replicate. lia. }
    intros k v h' blk' Hk Hq' Hlen' Hagree. rewrite Z.add_0_l.
    assert (k < length sub)%nat as Hklt by (by eapply lookup_lt_Some).
    rewrite (bind_Some _ _ _ h' v).
    - rewrite (store_Some h' _ blk'); simpl; [done|done|].
      unfold BUFFER_HEADER_WIDTH.
      rewrite Hlen', storage_length, length_replicate. lia.
    - rewrite u64_small by (unfold n in *; lia).
      apply (view_of_load _ _ bs); [|lia|].
      + apply (view_of_agree h); [|done]. rewrite Hagree by done.
        by apply lookup_insert_ne.
      + unfold sub in Hk. rewrite lookup_take_lt, lookup_drop in Hk by lia.
        rewrite <- Hk. f_equal. lia. }
  unfold mret, M_ret, h1. rewrite insert_insert_eq. do 3 f_equal.
  rewrite drop_ge, app_nil_r by (rewrite storage_length, length_replicate; lia).
  unfold storage. by rewrite take_app_length' by done.
Qed.

(** X9.  [c_buffer_substring str start end] for [start <= end <= length(str)]
    returns a view with offset 0 and length [end - start] of a block that did
    not exist before and that holds bytes [start] to [end - 1] of [str]; for
    [start = end] that is an empty buffer.  [str] is as it was.  The result
    holds the bytes of the slice of [str] of that range, and
    [c_buffer_eq] says so when [c_buffer_slice] accepts the range. *)
Theorem substring_copies_range (h : heap) (str : Buffer) (bs : list Z)
    (start end_ : Z) :
  view_of h str bs → 0 ≤ start ≤ end_ → end_ ≤ c_buffer_length str →
  ∃ (q : positive) (r : Buffer) (h' : heap),
    c_buffer_substring str start end_ h = Some (r, h') ∧
    h !! q = None ∧ (∀ q', q' ≠ q → h' !! q' = h !! q') ∧
    b_data r = (q, 0) ∧ b_offset r = 0 ∧
    c_buffer_length r = end_ - start ∧
    view_of h' r (take (Z.to_nat (end_ - start)) (drop (Z.to_nat start) bs)) ∧
    view_of h' str bs ∧
    (∀ (j v : Z), 0 ≤ j < end_ - start →
       bs !! Z.to_nat (start + j) = Some v →
       c_buffer_index r j h' = Some (v, h')) ∧
    (b_offset str + end_ ≤ c_buffer_length str →
     c_buffer_eq r (c_buffer_slice str start (end_ - start)) h'
     = Some (BooleanTrue, h')).
Proof.
  intros Hv Hse Hend. unfold c_buffer_length in *.
  pose proof Hv as (Hoff & Hlen & Hmax & _).
  destruct (substring_run h str bs start end_ Hv Hse Hend) as (q & Hq & Hrun).
  set (sub := take (Z.to_nat (end_ - start)) (drop (Z.to_nat start) bs)) in *.
  assert (Z.of_nat (length sub) = end_ - start) as Hsub.
  { unfold sub. rewrite length_take_le; [lia|]. rewrite length_drop. lia. }
  eexists q, _, _. split; [exact Hrun|]. split; [done|].
  split; [by intros q' Hne; apply lookup_insert_ne|]. do 3 (split; [done|]).
  assert (view_of (<[q := storage sub]> h)
            {| b_offset := 0; b_length := end_ - start; b_data := (q, 0) |}
            sub) as Hr.
  { rewrite <- Hsub. apply storage_view. lia. }
  assert (view_of (<[q := storage sub]> h) str bs) as Hstr.
  { apply (view_of_agree h); [|done]. apply lookup_insert_ne.
    destruct (view_of_live _ _ _ Hv) as [blk Hb]. intros E.
    rewrite <- E in Hb. congruence. }
  split; [exact Hr|]. split; [exact Hstr|]. split.
  - intros j v Hj Hbs. destruct Hr as (_ & _ & _ & _ & Hh).
    apply (index_run _ _ sub); [done|lia|].
    unfold sub. rewrite lookup_take_lt, lookup_drop by lia.
    rewrite <- Hbs. f_equal. lia.
  - intros Hin.
    pose proof (slice_view _ str bs start (end_ - start) Hstr ltac:(lia)
                  ltac:(lia) ltac:(lia)) as Hsv.
    rewrite (eq_run _ _ _ _ _ Hr Hsv). fold sub.
    by destruct (decide (sub = sub)).
Qed.

Lemma substring_copies_range_witness :
  let h : heap := {[ 1%positive := storage [1; 2; 3; 4; 5] ]} in
  let str := {| b_offset := 0; b_length := 5; b_data := (1%positive, 0) |} in
  view_of h str [1; 2; 3; 4; 5] ∧
  ∃ (r : Buffer) (h' : heap),
    c_buffer_substring str 1 4 h = Some (r, h') ∧
    view_of h' r [2; 3; 4] ∧
    c_buffer_eq r (c_buffer_slice str 1 3) h' = Some (BooleanTrue, h').
Proof.
  intros h str.
  assert (view_of h str [1; 2; 3; 4; 5]) as Hv.
  { repeat split; try (by vm_compute). concrete_holds. }
  split; [exact Hv|].
  destruct (substring_copies_range h str [1; 2; 3; 4; 5] 1 4 Hv
              ltac:(by vm_compute) ltac:(by vm_compute))
    as (q & r & h' & Hrun & _ & _ & _ & _ & _ & Hr & _ & _ & Heq).
  exists r, h'. split; [exact Hrun|]. split; [exact Hr|].
  apply Heq. by vm_compute.
Defined.

(** ** Counting owners *)

Lemma times_increment (order : byte_order) (DEBUG_REFCOUNT : bool)
    (b : Buffer) (q : positive) (rest : list cell) (k : nat) :
  ∀ (h : heap) (count : Z),
    b_data b = (q, 0) → h !! q = Some (counted order count rest) →
    0 ≤ count → count + Z.of_nat k < 2 ^ 64 →
    times k (c_buffer_refcount_increment order DEBUG_REFCOUNT b) h
    = Some (tt, <[q := counted order (count + Z.of_nat k) rest]> h).
Proof.
  induction k as [|k IH]; intros h count Hd Hq Hc Hmax.
  - simpl. unfold mret, M_ret. by rewrite Z.add_0_r, insert_id.
  - simpl times.
    rewrite (bind_Some _ _ _ _ _ (increment_run order DEBUG_REFCOUNT h b q
                                    count rest Hd Hq)).
    rewrite (u64_small count), u64_small by lia.
    rewrite (IH _ (count + 1) Hd (lookup_insert_eq _ _ _)) by lia.
    rewrite insert_insert_eq. do 4 f_equal. lia.
Qed.

Lemma times_decrement (order : byte_order) (DEBUG_REFCOUNT : bool)
    (b : Buffer) (q : positive) (rest : list cell) (k : nat) :
  ∀ (h : heap) (count : Z),
    b_data b = (q, 0) →
    h !! q = Some (counted order (count + Z.of_nat k) rest) →
    0 ≤ count → count + Z.of_nat k < 2 ^ 64 →
    times k (c_buffer_refcount_decrement order DEBUG_REFCOUNT b) h
    = Some (tt, <[q := counted order count rest]> h).
Proof.
  induction k as [|k IH]; intros h count Hd Hq Hc Hmax.
  - simpl. unfold mret, M_ret. rewrite Z.add_0_r in Hq. by rewrite insert_id.
  - simpl times.
    rewrite (bind_Some _ _ _ _ _ (decrement_run order DEBUG_REFCOUNT h b q
                                    _ rest Hd Hq)).
    rewrite (u64_small (count + _)) by lia.
    destruct (decide (count + Z.of_nat (S k) = 0)) as [|_]; [lia|].
    rewrite u64_small by lia.
    replace (count + Z.of_nat (S k) - 1) with (count + Z.of_nat k) by lia.
    rewrite (IH _ count Hd (lookup_insert_eq _ _ _)) by lia.
    by rewrite insert_insert_eq.
Qed.

(** X10.  The counter counts the owners beyond the first.  On a block whose
    counter is [count], [k] increments make the counter [count + k] and [k]
    decrements after them give back the heap as it was, the block alive all
    along; when [count] is 0, one more decrement frees the block. *)
Theorem refcount_balanced (order : byte_order) (DEBUG_REFCOUNT : bool)
    (h : heap) (b : Buffer) (q : positive) (count : Z) (rest : list cell)
    (k : nat) :
  b_data b = (q, 0) → h !! q = Some (counted order count rest) →
  0 ≤ count → count + Z.of_nat k < 2 ^ 64 →
  ∃ h1 : heap,
    times k (c_buffer_refcount_increment order DEBUG_REFCOUNT b) h
    = Some (tt, h1) ∧
    load64 order (c_buffer_refcount b) h1 = Some (count + Z.of_nat k, h1) ∧
    times k (c_buffer_refcount_decrement order DEBUG_REFCOUNT b) h1
    = Some (tt, h) ∧
    (count = 0 →
     (_ ← times k (c_buffer_refcount_decrement order DEBUG_REFCOUNT b);
      c_buffer_refcount_decrement order DEBUG_REFCOUNT b) h1
     = Some (tt, delete q h)).
Proof.
  intros Hd Hq Hc Hmax.
  pose proof (times_increment order DEBUG_REFCOUNT b q rest k h count
                Hd Hq Hc Hmax) as Hinc.
  pose proof (times_decrement order DEBUG_REFCOUNT b q rest k
                (<[q := counted order (count + Z.of_nat k) rest]> h) count Hd
                (lookup_insert_eq _ _ _) Hc Hmax) as Hdec.
  rewrite insert_insert_eq, (insert_id h q _ Hq) in Hdec.
  eexists. split; [exact Hinc|]. split; [|split; [exact Hdec|]].
  - unfold c_buffer_refcount, ptr_add. rewrite Hd. simpl.
    rewrite (load64_run order _ q (count + Z.of_nat k) rest
               (lookup_insert_eq _ _ _)).
    by rewrite u64_small by lia.
  - intros ->. rewrite (bind_Some _ _ _ _ _ Hdec).
    by rewrite (decrement_run order DEBUG_REFCOUNT h b q 0 rest Hd Hq).
Qed.

Lemma refcount_balanced_witness :
  let h : heap := {[ 1%positive := storage [7] ]} in
  let b := {| b_offset := 0; b_length := 1; b_data := (1%positive, 0) |} in
  ∃ h1 : heap,
    times 3 (c_buffer_refcount_increment LittleEndian false b) h
    = Some (tt, h1) ∧
    times 3 (c_buffer_refcount_decrement LittleEndian false b) h1
    = Some (tt, h).
Proof.
  intros h b.
  destruct (refcount_balanced LittleEndian false h b 1%positive 0 [Val 7] 3
              eq_refl eq_refl ltac:(by vm_compute) ltac:(by vm_compute))
    as (h1 & Hinc & _ & Hdec & _).
  exists h1. split; [exact Hinc|exact Hdec].
Defined.

(** X11.  A slice shares the counter of the view it was taken from, whatever the
    range: an increment through the slice is seen through the view, and a
    decrement through the view undoes it. *)
Theorem slice_shares_counter (order : byte_order) (DEBUG_REFCOUNT : bool)
    (h : heap) (b : Buffer) (q : positive) (count : Z) (rest : list cell)
    (offset length : Z) :
  b_data b = (q, 0) → h !! q = Some (counted order count rest) →
  0 ≤ count → count + 1 < 2 ^ 64 →
  ∃ h1 : heap,
    c_buffer_refcount_increment order DEBUG_REFCOUNT
      (c_buffer_slice b offset length) h = Some (tt, h1) ∧
    load64 order (c_buffer_refcount b) h1 = Some (count + 1, h1) ∧
    c_buffer_refcount_decrement order DEBUG_REFCOUNT b h1 = Some (tt, h).
Proof.
  intros Hd Hq Hc Hmax.
  assert (b_data (c_buffer_slice b offset length) = (q, 0)) as Hds
    by (by rewrite slice_data).
  eexists. split; [by apply (increment_run _ _ _ _ q count rest)|].
  rewrite (u64_small count), u64_small by lia. split.
  - unfold c_buffer_refcount, ptr_add. rewrite Hd. simpl.
    rewrite (load64_run order _ q (count + 1) rest (lookup_insert_eq _ _ _)).
    by rewrite u64_small by lia.
  - rewrite (decrement_run order DEBUG_REFCOUNT _ b q (count + 1) rest Hd
               (lookup_insert_eq _ _ _)).
    rewrite (u64_small (count + 1)) by lia.
    destruct (decide (count + 1 = 0)); [lia|].
    rewrite u64_small by lia.
    replace (count + 1 - 1) with count by lia.
    by rewrite insert_insert_eq, (insert_id h q _ Hq).
Qed.

Lemma slice_shares_counter_witness :
  let h : heap := {[ 1%positive := storage [1; 2; 3] ]} in
  let b := {| b_offset := 0; b_length := 3; b_data := (1%positive, 0) |} in
  ∃ h1 : heap,
    c_buffer_refcount_increment BigEndian false (c_buffer_slice b 1 2) h
    = Some (tt, h1) ∧
    c_buffer_refcount_decrement BigEndian false b h1 = Some (tt, h).
Proof.
  intros h b.
  destruct (slice_shares_counter BigEndian false h b 1%positive 0
              [Val 1; Val 2; Val 3] 1 2 eq_refl eq_refl
              ltac:(by vm_compute) ltac:(by vm_compute))
    as (h1 & Hinc & _ & Hdec).
  exists h1. split; [exact Hinc|exact Hdec].
Defined.

(** ** External texts *)

(** What [c_buffer_construct_from_null_terminated_string] does on any
    text: the scan starts at the second byte, so the first byte [c] is
    taken whatever it is, and the bytes after it up to the first zero among
    them. *)
Lemma from_null_terminated_run_first (h : heap) (data_nt : ptr) (c : Z)
    (rest : list Z) :
  holds h data_nt ((c :: rest) ++ [0]) → 0 ∉ rest →
  Z.of_nat (length (c :: rest)) + 8 < 2 ^ 64 →
  c_buffer_construct_from_null_terminated_string data_nt h
  = Some ({| b_offset := 0; b_length := u32 (Z.of_nat (length (c :: rest)));
             b_data := (fresh (dom h), 0) |},
          <[fresh (dom h) := storage (c :: rest)]> h).
Proof.
  intros Hh Hnz Hlen.
  unfold c_buffer_construct_from_null_terminated_string.
  pose proof (holds_block_size _ _ _ Hh ltac:(done)) as Hsz.
  rewrite length_app in Hsz. simpl in Hsz.
  rewrite (bind_Some _ _ _ h (Z.of_nat (length (c :: rest)))).
  - apply construct_run; [done|lia|by eapply holds_app_l].
  - apply (scan_terminator_run _ _ (c :: rest)); [done| |simpl; lia|lia|simpl; lia].
    intros [|i] c' Hi Hc ->; [lia|]. simpl in Hc.
    apply Hnz. by eapply list_elem_of_lookup_2.
Qed.

(** X12.  [c_buffer_construct_from_null_terminated_string] on a text in memory
    returns a view with offset 0 of a block that did not exist before, which
    holds the first byte of the text, whatever it is, and the bytes after it
    up to the first zero byte among them.  So for a text that does not
    begin with the terminator these are the bytes before the terminator. *)
Theorem from_null_terminated_keeps_first_byte (h : heap) (data_nt : ptr)
    (c : Z) (rest : list Z) :
  holds h data_nt ((c :: rest) ++ [0]) → 0 ∉ rest →
  Z.of_nat (length (c :: rest)) < 2 ^ 32 →
  ∃ (q : positive) (b : Buffer) (h' : heap),
    c_buffer_construct_from_null_terminated_string data_nt h = Some (b, h') ∧
    h !! q = None ∧ h' = <[q := storage (c :: rest)]> h ∧
    b_data b = (q, 0) ∧
    view_of h' b (c :: rest) ∧
    c_buffer_index b 0 h' = Some (c, h').
Proof.
  intros Hh Hnz Hlen.
  eexists (fresh (dom h)), _, _.
  split; [apply (from_null_terminated_run_first h data_nt c rest Hh Hnz); lia|].
  split; [apply fresh_None|]. do 2 (split; [done|]).
  rewrite u32_small by lia.
  pose proof (storage_view h (fresh (dom h)) (c :: rest) Hlen) as Hv.
  split; [exact Hv|]. destruct Hv as (_ & _ & _ & _ & Hb).
  by apply (index_run _ _ (c :: rest)).
Qed.

Lemma from_null_terminated_keeps_first_byte_witness :
  let h : heap := {[ 1%positive := Val <$> [0x2D; 0x34; 0x32; 0; 0x99] ]} in
  holds h (1%positive, 0) ((0x2D :: [0x34; 0x32]) ++ [0]) ∧
  ∃ (b : Buffer) (h' : heap),
    c_buffer_construct_from_null_terminated_string (1%positive, 0) h
    = Some (b, h') ∧
    view_of h' b [0x2D; 0x34; 0x32].
Proof.
  intros h.
  assert (holds h (1%positive, 0) ((0x2D :: [0x34; 0x32]) ++ [0])) as Hh
    by concrete_holds.
  split; [exact Hh|].
  destruct (from_null_terminated_keeps_first_byte h (1%positive, 0) 0x2D
              [0x34; 0x32] Hh)
    as (q & b & h' & Hrun & _ & _ & _ & Hv & _).
  { by apply (bool_decide_unpack _). }
  { by vm_compute. }
  exists b, h'. split; [exact Hrun|exact Hv].
Defined.

Lemma escaped_id (bs : list Z) : 0 ∉ bs → escaped bs = bs.
Proof.
  induction bs as [|b bs IH]; intros Hnz; [done|].
  apply not_elem_of_cons in Hnz as [Hb Hnz].
  rewrite escaped_cons, IH by done. unfold escape_zero.
  by destruct (decide (b = 0)).
Qed.

Lemma escaped_nonempty (bs : list Z) : bs ≠ [] → escaped bs ≠ [].
Proof.
  destruct bs as [|b bs]; [done|]. intros _. rewrite escaped_cons.
  unfold escape_zero. by destruct (decide (b = 0)).
Qed.

Lemma as_null_terminated_run (h : heap) (view : Buffer) (bs : list Z) :
  view_of h view bs →
  c_buffer_as_null_terminated_string view h
  = Some ((fresh (dom h), 0),
          <[fresh (dom h) := Val <$> (escaped bs ++ [0])]> h).
Proof.
  intros (Hoff & Hlen & Hmax & Hd & Hh). set (q := fresh (dom h)).
  unfold c_buffer_as_null_terminated_string, c_buffer_length, for_upto.
  rewrite Hlen, Nat2Z.id.
  erewrite bind_Some; cycle 1.
  { apply (count_loop (c_buffer_bytes view) h bs 0 0); [|lia|lia].
    intros k v Hk. apply (holds_lookup _ _ bs); [done|lia|].
    by rewrite Z.add_0_l, Nat2Z.id. }
  rewrite Z.add_0_l.
  pose proof (length_filter (λ b, b = 0) bs) as Hzc.
  fold (zero_count bs) in Hzc.
  set (n := Z.of_nat (length bs) + Z.of_nat (zero_count bs)).
  rewrite (u64_small n) by (unfold n; lia).
  rewrite (u64_small (n + 1)) by (unfold n; lia).
  rewrite Z.mul_1_r, (u64_small (n + 1)) by (unfold n; lia).
  set (room := Z.to_nat (n + 1)).
  set (h1 := <[q := replicate room Uninit]> h).
  rewrite (bind_Some _ _ _ h1 (q, 0)) by done.
  rewrite (bind_Some _ _ _ h1 tt) by done.
  assert (length (escaped bs) = Z.to_nat n) as Hesc
    by (rewrite escaped_length; unfold n; lia).
  assert ((c_buffer_bytes view).1 ≠ q) as Hne.
  { destruct Hh as (blk & Hb & _). intros E. rewrite E in Hb.
    pose proof (fresh_None h) as Hq. fold q in Hq. congruence. }
  erewrite bind_Some; cycle 1.
  { apply (escape_loop (c_buffer_bytes view) q bs 0 [] room h1).
    - apply lookup_insert_eq.
    - intros k v h' Hk Hagree.
      apply (holds_lookup _ _ bs); [|lia|by rewrite Z.add_0_l, Nat2Z.id].
      apply (holds_agree h); [|done]. rewrite Hagree by done.
      by apply lookup_insert_ne.
    - unfold room. lia.
    - unfold room, n. simpl. lia. }
  simpl app.
  replace (room - length (escaped bs))%nat with 1%nat by (unfold room; lia).
  erewrite bind_Some; cycle 1.
  { apply (store_at _ q _ _ 0 (lookup_insert_eq _ _ _)).
    rewrite length_app, length_fmap, Hesc. simpl. lia. }
  unfold mret, M_ret, h1. rewrite !insert_insert_eq. do 3 f_equal.
  rewrite <- Hesc, written_push. apply app_nil_r.
Qed.

(** X13.  To an external text and back.  For a view that is not empty, the text
    that [c_buffer_as_null_terminated_string] makes is turned by
    [c_buffer_construct_from_null_terminated_string] into a buffer of the
    escaped bytes: the bytes of the view when none of them is zero, and
    otherwise a longer sequence in which [0xC0 0x80] stands for each zero
    byte.  The text itself stays allocated. *)
Theorem external_text_round_trip (h : heap) (view : Buffer) (bs : list Z) :
  view_of h view bs → bs ≠ [] →
  ∃ (p q : positive) (b : Buffer) (h1 h2 : heap),
    c_buffer_as_null_terminated_string view h = Some ((p, 0), h1) ∧
    c_buffer_construct_from_null_terminated_string (p, 0) h1 = Some (b, h2) ∧
    h1 !! q = None ∧ b_data b = (q, 0) ∧ b_offset b = 0 ∧
    h2 = <[q := storage (escaped bs)]> h1 ∧
    h2 !! p = Some (Val <$> (escaped bs ++ [0])) ∧
    b_length b = (b_length view + Z.of_nat (zero_count bs)) mod 2 ^ 32 ∧
    (0 ∉ bs → view_of h2 b bs) ∧
    (0 ∈ bs → (length bs < length (escaped bs))%nat).
Proof.
  intros Hv Hne. pose proof Hv as (_ & Hlen & Hmax & _).
  pose proof (as_null_terminated_run h view bs Hv) as Hrun.
  pose proof (fresh_None h) as Hp. set (p := fresh (dom h)) in *.
  set (h1 := <[p := Val <$> (escaped bs ++ [0])]> h) in *.
  pose proof (escaped_length bs) as Hel.
  pose proof (length_filter (λ b, b = 0) bs) as Hzc.
  fold (zero_count bs) in Hzc.
  assert (holds h1 (p, 0) (escaped bs ++ [0])) as Hh1.
  { exists (Val <$> (escaped bs ++ [0])). split; [apply lookup_insert_eq|].
    split; [done|]. simpl. rewrite drop_0.
    by rewrite take_ge by (by rewrite length_fmap). }
  pose proof (from_null_terminated_run h1 (p, 0) (escaped bs) Hh1
                (escaped_nonempty bs Hne) (escaped_no_zero bs) ltac:(lia))
    as Hfrom.
  pose proof (fresh_None h1) as Hq. set (q := fresh (dom h1)) in *.
  exists p, q. eexists _, h1, _. split; [exact Hrun|]. split; [exact Hfrom|].
  do 4 (split; [done|]). split.
  { rewrite lookup_insert_ne; [apply lookup_insert_eq|].
    intros E. rewrite E in Hq. unfold h1 in Hq.
    by rewrite lookup_insert_eq in Hq. }
  split; [unfold u32; simpl; f_equal; lia|]. split.
  - intros Hnz. rewrite (escaped_id bs Hnz). rewrite (escaped_id bs Hnz) in Hel.
    replace (Z.of_nat (length bs)) with (Z.of_nat (length bs) mod 2 ^ 32)
      by (apply Z.mod_small; lia).
    rewrite Z.mod_small by lia.
    rewrite u32_small by lia. apply storage_view. lia.
  - intros Hz. rewrite Hel. unfold zero_count.
    assert (0 ∈ filter (λ b, b = 0) bs) as Hin by (by apply list_elem_of_filter).
    destruct (filter (λ b, b = 0) bs); [by apply elem_of_nil in Hin|].
    simpl. lia.
Qed.

Lemma external_text_round_trip_witness :
  let h : heap := {[ 1%positive := storage [0x41; 0; 0x42] ]} in
  let view := {| b_offset := 0; b_length := 3; b_data := (1%positive, 0) |} in
  let ab := {| b_offset := 2; b_length := 1; b_data := (1%positive, 0) |} in
  view_of h view [0x41; 0; 0x42] ∧ view_of h ab [0x42] ∧
  (∃ (p : positive) (b : Buffer) (h1 h2 : heap),
     c_buffer_as_null_terminated_string view h = Some ((p, 0), h1) ∧
     c_buffer_construct_from_null_terminated_string (p, 0) h1 = Some (b, h2) ∧
     b_length b = 4) ∧
  (∃ (p : positive) (b : Buffer) (h1 h2 : heap),
     c_buffer_as_null_terminated_string ab h = Some ((p, 0), h1) ∧
     c_buffer_construct_from_null_terminated_string (p, 0) h1 = Some (b, h2) ∧
     view_of h2 b [0x42]).
Proof.
  intros h view ab.
  assert (view_of h view [0x41; 0; 0x42]) as Hv.
  { repeat split; try (by vm_compute). concrete_holds. }
  assert (view_of h ab [0x42]) as Hab.
  { repeat split; try (by vm_compute). concrete_holds. }
  split; [exact Hv|]. split; [exact Hab|]. split.
  - destruct (external_text_round_trip h view [0x41; 0; 0x42] Hv
                ltac:(discriminate))
      as (p & q & b & h1 & h2 & Hto & Hfrom & _ & _ & _ & _ & _ & Hlen & _).
    exists p, b, h1, h2. split; [exact Hto|]. split; [exact Hfrom|].
    exact Hlen.
  - destruct (external_text_round_trip h ab [0x42] Hab ltac:(discriminate))
      as (p & q & b & h1 & h2 & Hto & Hfrom & _ & _ & _ & _ & _ & _ & Hsame & _).
    exists p, b, h1, h2. split; [exact Hto|]. split; [exact Hfrom|].
    apply Hsame. by apply (bool_decide_unpack _).
Defined.

(** ** UTF-8, for every scalar value *)

Lemma lor_disjoint (a b k : Z) :
  0 ≤ k → 0 ≤ b < 2 ^ k → Z.lor (a * 2 ^ k) b = a * 2 ^ k + b.
Proof.
  intros Hk Hb. rewrite <- (Z.add_lor_land (a * 2 ^ k) b).
  assert (Z.land (a * 2 ^ k) b = 0) as ->; [|lia].
  apply Z.bits_inj'. intros i Hi. rewrite Z.land_spec, Z.bits_0.
  destruct (decide (i < k)) as [Hlt|Hge].
  - by rewrite Z.mul_pow2_bits_low.
  - rewrite <- (Z.mod_small b (2 ^ k)) by done.
    rewrite Z.mod_pow2_bits_high by lia. apply andb_false_r.
Qed.

(** The bytes that [c_buffer_show_Char] makes, checked for every value of
    the bits they carry: none is zero, a leading byte announces the width
    it was made for, and the masks of [c_buffer_character_at] give the bits
    back. *)
Lemma continuation_byte (k : Z) :
  0 ≤ k < 64 →
  u8 (Z.lor 0x80 k) ≠ 0 ∧ Z.land (u8 (Z.lor 0x80 k)) 0x3F = k.
Proof.
  intros Hk.
  assert (Forall (λ k, u8 (Z.lor 0x80 k) ≠ 0
                       ∧ Z.land (u8 (Z.lor 0x80 k)) 0x3F = k) (seqZ 0 64))
    as Hall by (apply (bool_decide_unpack _); by vm_compute).
  rewrite Forall_forall in Hall. apply Hall, elem_of_seqZ. lia.
Qed.

Lemma leading_byte2 (k : Z) :
  0 ≤ k < 32 →
  u8 (Z.lor 0xC0 k) ≠ 0 ∧ sequence_width (u8 (Z.lor 0xC0 k)) = Some 2
  ∧ Z.land (u8 (Z.lor 0xC0 k)) 0x1F = k.
Proof.
  intros Hk.
  assert (Forall (λ k, u8 (Z.lor 0xC0 k) ≠ 0
                       ∧ sequence_width (u8 (Z.lor 0xC0 k)) = Some 2
                       ∧ Z.land (u8 (Z.lor 0xC0 k)) 0x1F = k) (seqZ 0 32))
    as Hall by (apply (bool_decide_unpack _); by vm_compute).
  rewrite Forall_forall in Hall. apply Hall, elem_of_seqZ. lia.
Qed.

Lemma leading_byte3 (k : Z) :
  0 ≤ k < 16 →
  u8 (Z.lor 0xE0 k) ≠ 0 ∧ sequence_width (u8 (Z.lor 0xE0 k)) = Some 3
  ∧ Z.land (u8 (Z.lor 0xE0 k)) 0x0F = k.
Proof.
  intros Hk.
  assert (Forall (λ k, u8 (Z.lor 0xE0 k) ≠ 0
                       ∧ sequence_width (u8 (Z.lor 0xE0 k)) = Some 3
                       ∧ Z.land (u8 (Z.lor 0xE0 k)) 0x0F = k) (seqZ 0 16))
    as Hall by (apply (bool_decide_unpack _); by vm_compute).
  rewrite Forall_forall in Hall. apply Hall, elem_of_seqZ. lia.
Qed.

Lemma leading_byte4 (k : Z) :
  0 ≤ k < 8 →
  u8 (Z.lor 0xF0 k) ≠ 0 ∧ sequence_width (u8 (Z.lor 0xF0 k)) = Some 4
  ∧ Z.land (u8 (Z.lor 0xF0 k)) 0x07 = k.
Proof.
  intros Hk.
  assert (Forall (λ k, u8 (Z.lor 0xF0 k) ≠ 0
                       ∧ sequence_width (u8 (Z.lor 0xF0 k)) = Some 4
                       ∧ Z.land (u8 (Z.lor 0xF0 k)) 0x07 = k) (seqZ 0 8))
    as Hall by (apply (bool_decide_unpack _); by vm_compute).
  rewrite Forall_forall in Hall. apply Hall, elem_of_seqZ. lia.
Qed.

Lemma low_six_bits (n : Z) : 0 ≤ n → Z.land n 0x3F = n mod 64.
Proof.
  intros Hn. change 0x3F with (Z.ones 6). by rewrite Z.land_ones by done.
Qed.

Lemma shift_right (n k : Z) : 0 ≤ k → n ≫ k = n / 2 ^ k.
Proof. intros Hk. by apply Z.shiftr_div_pow2. Qed.

Lemma show_Char_str_width (n : Z) :
  0 ≤ n →
  show_Char_str n
  = if decide (n < 0x80) then [n; 0; 0; 0; 0]
    else if decide (n < 0x800) then
      [u8 (Z.lor 0xC0 (n ≫ 6)); u8 (Z.lor 0x80 (Z.land n 0x3F)); 0; 0; 0]
    else if decide (n < 0x10000) then
      [u8 (Z.lor 0xE0 (n ≫ 12)); u8 (Z.lor 0x80 (Z.land (n ≫ 6) 0x3F));
       u8 (Z.lor 0x80 (Z.land n 0x3F)); 0; 0]
    else if decide (n < 0x110000) then
      [u8 (Z.lor 0xF0 (n ≫ 18)); u8 (Z.lor 0x80 (Z.land (n ≫ 12) 0x3F));
       u8 (Z.lor 0x80 (Z.land (n ≫ 6) 0x3F));
       u8 (Z.lor 0x80 (Z.land n 0x3F)); 0]
    else [0; 0; 0; 0; 0].
Proof.
  intros Hn. unfold show_Char_str.
  repeat (destruct (decide _); [try reflexivity|]); try reflexivity.
  change (<[0%nat:=u8 n]> [0; 0; 0; 0; 0]) with [u8 n; 0; 0; 0; 0].
  unfold u8. by rewrite Z.mod_small by lia.
Qed.

(** [c_buffer_show_Char n] when the array holds the byte [c], the bytes
    [rest] without a zero among them, and then a zero. *)
Lemma show_Char_run_first (h : heap) (n c : Z) (rest pad : list Z) :
  show_Char_str n = (c :: rest) ++ 0 :: pad → 0 ∉ rest →
  ∃ q : positive,
    h !! q = None ∧
    c_buffer_show_Char n h
    = Some ({| b_offset := 0; b_length := Z.of_nat (length (c :: rest));
               b_data := (q, 0) |},
            <[q := storage (c :: rest)]> h).
Proof.
  intros Hstr Hnz.
  assert (length (c :: rest) ≤ 4)%nat as Hlen.
  { apply (f_equal length) in Hstr. rewrite length_app in Hstr.
    assert (length (show_Char_str n) = 5%nat)
      by (unfold show_Char_str; repeat (destruct (decide _)); done).
    simpl in *. lia. }
  pose proof (fresh_None h) as Hp. set (p := fresh (dom h)) in *.
  set (h1 := <[p := Val <$> show_Char_str n]> h).
  pose proof (fresh_None h1) as Hq. set (q := fresh (dom h1)) in *.
  assert (p ≠ q) as Hpq.
  { intros E. rewrite <- E in Hq. unfold h1 in Hq.
    by rewrite lookup_insert_eq in Hq. }
  exists q. split.
  { unfold h1 in Hq. by rewrite lookup_insert_ne in Hq. }
  unfold c_buffer_show_Char.
  rewrite (bind_Some _ _ _ (<[p := Val <$> [0; 0; 0; 0; 0]]> h) (p, 0)) by done.
  rewrite (bind_Some _ _ _ _ _ (show_Char_stores h p n)). fold h1.
  assert (holds h1 (p, 0) ((c :: rest) ++ [0])) as Hstr1.
  { exists (Val <$> show_Char_str n). split; [apply lookup_insert_eq|].
    split; [done|]. change (Z.to_nat (p, 0).2) with 0%nat.
    rewrite drop_0, Hstr.
    rewrite (cons_middle 0 (c :: rest) pad), app_assoc, fmap_app.
    by rewrite take_app_length' by (by rewrite length_fmap). }
  rewrite (bind_Some _ _ _ _ _ (from_null_terminated_run_first h1 (p, 0) c rest
                                  Hstr1 Hnz ltac:(lia))).
  fold q.
  rewrite (bind_Some _ _ _ (delete p (<[q := storage (c :: rest)]> h1)) tt).
  2: { apply (free_run _ _ (Val <$> show_Char_str n)).
       rewrite lookup_insert_ne by done. apply lookup_insert_eq. }
  unfold mret, M_ret. rewrite u32_small by lia. do 2 f_equal.
  rewrite delete_insert_ne by done. unfold h1. by rewrite delete_insert_id.
Qed.

(** The bits that [c_buffer_character_at] puts together do not overlap. *)
Lemma join2 (a c : Z) :
  0 ≤ c < 64 → Z.lor (a ≪ 6) c = a * 64 + c.
Proof.
  intros Hc. rewrite Z.shiftl_mul_pow2 by done. by rewrite lor_disjoint.
Qed.

Lemma join3 (a m c : Z) :
  0 ≤ m < 64 → 0 ≤ c < 64 →
  Z.lor (Z.lor (a ≪ 12) (m ≪ 6)) c = a * 4096 + m * 64 + c.
Proof.
  intros Hm Hc. rewrite !Z.shiftl_mul_pow2 by done.
  rewrite (lor_disjoint a (m * 2 ^ 6) 12) by lia.
  replace (a * 2 ^ 12 + m * 2 ^ 6) with ((a * 64 + m) * 2 ^ 6) by lia.
  rewrite lor_disjoint by done. lia.
Qed.

Lemma join4 (a m1 m2 c : Z) :
  0 ≤ m1 < 64 → 0 ≤ m2 < 64 → 0 ≤ c < 64 →
  Z.lor (Z.lor (Z.lor (a ≪ 18) (m1 ≪ 12)) (m2 ≪ 6)) c
  = a * 262144 + m1 * 4096 + m2 * 64 + c.
Proof.
  intros Hm1 Hm2 Hc. rewrite !Z.shiftl_mul_pow2 by done.
  rewrite (lor_disjoint a (m1 * 2 ^ 12) 18) by lia.
  replace (a * 2 ^ 18 + m1 * 2 ^ 12) with ((a * 64 + m1) * 2 ^ 12) by lia.
  rewrite (lor_disjoint _ (m2 * 2 ^ 6) 12) by lia.
  replace ((a * 64 + m1) * 2 ^ 12 + m2 * 2 ^ 6)
    with (((a * 64 + m1) * 64 + m2) * 2 ^ 6) by lia.
  rewrite lor_disjoint by done. lia.
Qed.

Lemma decoded_small (v : Z) : 0 ≤ v < 0x110000 → u32 v = v.
Proof. intros Hv. apply u32_small. lia. Qed.

(** X14.  Encoding and decoding a character, for every scalar value.  For every
    [n] below [0x110000], in every heap, [c_buffer_show_Char n] returns a
    view of a block that did not exist before (no other block changes), of
    1, 2, 3 or 4 bytes according to [n], whose first byte announces that
    width, and [c_buffer_character_at] of it at 0 returns [n]. *)
Theorem show_Char_round_trip (h : heap) (n : Z) :
  0 ≤ n < 0x110000 →
  ∃ (q : positive) (b : Buffer) (h' : heap) (bs : list Z),
    c_buffer_show_Char n h = Some (b, h') ∧
    h !! q = None ∧ h' = <[q := storage bs]> h ∧ b_data b = (q, 0) ∧
    view_of h' b bs ∧
    c_buffer_length b
    = (if decide (n < 0x80) then 1 else if decide (n < 0x800) then 2
       else if decide (n < 0x10000) then 3 else 4) ∧
    (sequence_width <$> head bs) = Some (Some (c_buffer_length b)) ∧
    c_buffer_character_at b 0 h' = Some (n, h').
Proof.
  intros Hn. pose proof (show_Char_str_width n ltac:(lia)) as Hstr.
  pose proof (low_six_bits n ltac:(lia)) as Hlow.
  assert (0 ≤ n ≫ 6) as H6
    by (rewrite shift_right by lia; Z.to_euclidean_division_equations; lia).
  assert (0 ≤ n ≫ 12) as H12
    by (rewrite shift_right by lia; Z.to_euclidean_division_equations; lia).
  pose proof (low_six_bits (n ≫ 6) H6) as Hmid.
  pose proof (low_six_bits (n ≫ 12) H12) as Hhigh.
  rewrite !shift_right in * by lia.
  change (2 ^ 6) with 64 in *. change (2 ^ 12) with 4096 in *.
  change (2 ^ 18) with 262144 in *.
  destruct (decide (n < 0x80)) as [H1|H1];
    [|destruct (decide (n < 0x800)) as [H2|H2];
      [|destruct (decide (n < 0x10000)) as [H3|H3];
        [|destruct (decide (n < 0x110000)) as [_|?]; [|lia]]]].
  - destruct (show_Char_run_first h n n [] [0; 0; 0] Hstr
                ltac:(apply not_elem_of_nil)) as (q & Hq & Hrun).
    pose proof (storage_view h q [n] ltac:(by vm_compute)) as Hv.
    exists q. eexists _, _, [n]. split; [exact Hrun|].
    do 3 (split; [done|]). split; [exact Hv|]. split; [done|]. split.
    { simpl. unfold sequence_width. by destruct (decide (n < 128)). }
    rewrite (character_at_width1 _ _ [n] 0 n Hv) by done.
    by rewrite decoded_small.
  - set (b0 := u8 (Z.lor 0xC0 (n / 64))) in *.
    set (b1 := u8 (Z.lor 0x80 (Z.land n 0x3F))) in *.
    destruct (leading_byte2 (n / 64)) as (Hb0 & Hw & Hk);
      [Z.to_euclidean_division_equations; lia|].
    destruct (continuation_byte (Z.land n 0x3F)) as (Hb1 & Hl);
      [rewrite Hlow; Z.to_euclidean_division_equations; lia|].
    fold b0 in Hb0, Hw, Hk. fold b1 in Hb1, Hl.
    destruct (show_Char_run_first h n b0 [b1] [0; 0] Hstr) as (q & Hq & Hrun).
    { apply not_elem_of_cons. split; [done|apply not_elem_of_nil]. }
    pose proof (storage_view h q [b0; b1] ltac:(by vm_compute)) as Hv.
    exists q. eexists _, _, [b0; b1]. split; [exact Hrun|].
    do 3 (split; [done|]). split; [exact Hv|]. split; [done|].
    split; [simpl; by rewrite Hw|].
    rewrite (character_at_width2 _ _ [b0; b1] 0 b0 b1 Hv) by done.
    rewrite Hk, Hl, Hlow, join2 by (Z.to_euclidean_division_equations; lia).
    rewrite decoded_small; [do 2 f_equal|];
      Z.to_euclidean_division_equations; lia.
  - set (b0 := u8 (Z.lor 0xE0 (n / 4096))) in *.
    set (b1 := u8 (Z.lor 0x80 (Z.land (n / 64) 0x3F))) in *.
    set (b2 := u8 (Z.lor 0x80 (Z.land n 0x3F))) in *.
    destruct (leading_byte3 (n / 4096)) as (Hb0 & Hw & Hk);
      [Z.to_euclidean_division_equations; lia|].
    destruct (continuation_byte (Z.land (n / 64) 0x3F)) as (Hb1 & Hm);
      [rewrite Hmid; Z.to_euclidean_division_equations; lia|].
    destruct (continuation_byte (Z.land n 0x3F)) as (Hb2 & Hl);
      [rewrite Hlow; Z.to_euclidean_division_equations; lia|].
    fold b0 in Hb0, Hw, Hk. fold b1 in Hb1, Hm. fold b2 in Hb2, Hl.
    destruct (show_Char_run_first h n b0 [b1; b2] [0] Hstr)
      as (q & Hq & Hrun).
    { repeat (apply not_elem_of_cons; split; [done|]). apply not_elem_of_nil. }
    pose proof (storage_view h q [b0; b1; b2] ltac:(by vm_compute)) as Hv.
    exists q. eexists _, _, [b0; b1; b2]. split; [exact Hrun|].
    do 3 (split; [done|]). split; [exact Hv|]. split; [done|].
    split; [simpl; by rewrite Hw|].
    rewrite (character_at_width3 _ _ [b0; b1; b2] 0 b0 b1 b2 Hv) by done.
    rewrite Hk, Hm, Hl, Hlow, Hmid, join3
      by (Z.to_euclidean_division_equations; lia).
    rewrite decoded_small; [do 2 f_equal|];
      Z.to_euclidean_division_equations; lia.
  - set (b0 := u8 (Z.lor 0xF0 (n / 262144))) in *.
    set (b1 := u8 (Z.lor 0x80 (Z.land (n / 4096) 0x3F))) in *.
    set (b2 := u8 (Z.lor 0x80 (Z.land (n / 64) 0x3F))) in *.
    set (b3 := u8 (Z.lor 0x80 (Z.land n 0x3F))) in *.
    destruct (leading_byte4 (n / 262144)) as (Hb0 & Hw & Hk);
      [Z.to_euclidean_division_equations; lia|].
    destruct (continuation_byte (Z.land (n / 4096) 0x3F)) as (Hb1 & Hm1);
      [rewrite Hhigh; Z.to_euclidean_division_equations; lia|].
    destruct (continuation_byte (Z.land (n / 64) 0x3F)) as (Hb2 & Hm2);
      [rewrite Hmid; Z.to_euclidean_division_equations; lia|].
    destruct (continuation_byte (Z.land n 0x3F)) as (Hb3 & Hl);
      [rewrite Hlow; Z.to_euclidean_division_equations; lia|].
    fold b0 in Hb0, Hw, Hk. fold b1 in Hb1, Hm1. fold b2 in Hb2, Hm2.
    fold b3 in Hb3, Hl.
    destruct (show_Char_run_first h n b0 [b1; b2; b3] [] Hstr)
      as (q & Hq & Hrun).
    { repeat (apply not_elem_of_cons; split; [done|]). apply not_elem_of_nil. }
    pose proof (storage_view h q [b0; b1; b2; b3] ltac:(by vm_compute)) as Hv.
    exists q. eexists _, _, [b0; b1; b2; b3]. split; [exact Hrun|].
    do 3 (split; [done|]). split; [exact Hv|]. split; [done|].
    split; [simpl; by rewrite Hw|].
    rewrite (character_at_width4 _ _ [b0; b1; b2; b3] 0 b0 b1 b2 b3 Hv)
      by done.
    rewrite Hk, Hm1, Hm2, Hl, Hlow, Hmid, Hhigh, join4
      by (Z.to_euclidean_division_equations; lia).
    rewrite decoded_small; [do 2 f_equal|];
      Z.to_euclidean_division_equations; lia.
Qed.

Lemma show_Char_round_trip_witness :
  ∃ (b : Buffer) (h' : heap),
    c_buffer_show_Char 0xE9 ∅ = Some (b, h') ∧
    c_buffer_length b = 2 ∧
    c_buffer_character_at b 0 h' = Some (0xE9, h').
Proof.
  destruct (show_Char_round_trip ∅ 0xE9 ltac:(by vm_compute))
    as (q & b & h' & bs & Hrun & _ & _ & _ & _ & Hlen & _ & Hdec).
  exists b, h'. split; [exact Hrun|]. split; [exact Hlen|exact Hdec].
Defined.

(** X15.  Beyond the scalar values.  For [n] from [0x110000] up no branch of
    [c_buffer_show_Char] writes anything: the result is a buffer of one byte,
    which is zero, as it is for [n = 0], and [c_buffer_character_at] of it
    returns 0, not [n]. *)
Theorem show_Char_out_of_range (h : heap) (n : Z) :
  0x110000 ≤ n →
  ∃ (q : positive) (b : Buffer) (h' : heap),
    c_buffer_show_Char n h = Some (b, h') ∧
    h !! q = None ∧ h' = <[q := storage [0]]> h ∧ b_data b = (q, 0) ∧
    view_of h' b [0] ∧
    c_buffer_character_at b 0 h' = Some (0, h').
Proof.
  intros Hn.
  assert (show_Char_str n = (0 :: []) ++ 0 :: [0; 0; 0]) as Hstr.
  { rewrite show_Char_str_width by lia.
    repeat (destruct (decide _); [lia|]). done. }
  destruct (show_Char_run_first h n 0 [] [0; 0; 0] Hstr
              ltac:(apply not_elem_of_nil)) as (q & Hq & Hrun).
  pose proof (storage_view h q [0] ltac:(by vm_compute)) as Hv.
  exists q. eexists _, _. split; [exact Hrun|]. do 3 (split; [done|]).
  split; [exact Hv|].
  by rewrite (character_at_width1 _ _ [0] 0 0 Hv).
Qed.

Lemma show_Char_out_of_range_witness :
  ∃ (b : Buffer) (h' : heap),
    c_buffer_show_Char 0x110000 ∅ = Some (b, h') ∧
    view_of h' b [0] ∧
    c_buffer_character_at b 0 h' = Some (0, h').
Proof.
  destruct (show_Char_out_of_range ∅ 0x110000 ltac:(by vm_compute))
    as (q & b & h' & Hrun & _ & _ & _ & Hv & Hdec).
  exists b, h'. split; [exact Hrun|]. split; [exact Hv|exact Hdec].
Defined.

(** ** Decoding stays inside the view *)

Lemma low_bits (x k : Z) : 0 ≤ k → Z.land x (Z.ones k) = x mod 2 ^ k.
Proof. intros Hk. by apply Z.land_ones. Qed.

(** X16.  For every view of bytes and every index inside it,
    [c_buffer_character_at] returns a value, below [0x200000], whatever the
    bytes are, and it changes nothing.  This holds also where the view ends
    with its block: no read goes past the end of the view and out of the
    block. *)
Theorem character_at_stays_inside (h : heap) (b : Buffer) (bs : list Z)
    (i : Z) :
  view_of h b bs → Forall is_byte bs → 0 ≤ i < c_buffer_length b →
  ∃ v : Z, c_buffer_character_at b i h = Some (v, h) ∧ 0 ≤ v < 0x200000.
Proof.
  intros Hv Hbytes Hi. pose proof Hv as (_ & Hlen & Hmax & _).
  unfold c_buffer_length in Hi.
  assert (∀ j : Z, 0 ≤ j < b_length b →
            ∃ w, bs !! Z.to_nat j = Some w ∧ is_byte w) as Hbyte.
  { intros j Hj. destruct (bs !! Z.to_nat j) as [w|] eqn:Hw.
    - exists w. split; [done|]. by eapply Forall_lookup_1.
    - apply lookup_ge_None in Hw. lia. }
  assert (∀ x, 0 ≤ x → 0 ≤ Z.land x 0x3F < 64) as Hsix.
  { intros x Hx. change 0x3F with (Z.ones 6). rewrite low_bits by done.
    change (2 ^ 6) with 64. Z.to_euclidean_division_equations. lia. }
  destruct (Hbyte i Hi) as (fb & Hfb & Hfbb). unfold is_byte in Hfbb.
  unfold c_buffer_character_at.
  rewrite (bind_Some _ _ _ _ _ (view_of_load _ _ _ _ _ Hv (proj1 Hi) Hfb)).
  rewrite (u64_small (i + 1)), (u64_small (i + 2)), (u64_small (i + 3)) by lia.
  destruct (decide (fb < 128)) as [H1|H1].
  { exists (u32 fb). rewrite u32_small by lia. split; [done|lia]. }
  destruct (decide (Z.land fb 224 = 192)) as [H2|H2].
  { destruct (decide (i + 1 < b_length b)) as [Hin|Hout];
      [|exists 0; split; [done|lia]].
    destruct (Hbyte (i + 1) ltac:(lia)) as (b1 & Hb1 & Hbb1).
    unfold is_byte in Hbb1.
    rewrite (bind_Some _ _ _ _ _
               (view_of_load _ _ _ (i + 1) _ Hv ltac:(lia) Hb1)).
    eexists. split; [done|].
    change 0x1F with (Z.ones 5). rewrite low_bits, join2 by (done || (apply Hsix; lia)).
    pose proof (Hsix b1 ltac:(lia)). change (2 ^ 5) with 32.
    rewrite u32_small; Z.to_euclidean_division_equations; lia. }
  destruct (decide (Z.land fb 240 = 224)) as [H3|H3].
  { destruct (decide (i + 2 < b_length b)) as [Hin|Hout];
      [|exists 0; split; [done|lia]].
    destruct (Hbyte (i + 1) ltac:(lia)) as (b1 & Hb1 & Hbb1).
    destruct (Hbyte (i + 2) ltac:(lia)) as (b2 & Hb2 & Hbb2).
    unfold is_byte in Hbb1, Hbb2.
    rewrite (bind_Some _ _ _ _ _
               (view_of_load _ _ _ (i + 1) _ Hv ltac:(lia) Hb1)).
    rewrite (bind_Some _ _ _ _ _
               (view_of_load _ _ _ (i + 2) _ Hv ltac:(lia) Hb2)).
    eexists. split; [done|].
    change 0x0F with (Z.ones 4).
    rewrite low_bits, join3 by (done || (apply Hsix; lia)).
    pose proof (Hsix b1 ltac:(lia)). pose proof (Hsix b2 ltac:(lia)).
    change (2 ^ 4) with 16.
    rewrite u32_small; Z.to_euclidean_division_equations; lia. }
  destruct (decide (Z.land fb 248 = 240)) as [H4|H4];
    [|exists 0; split; [done|lia]].
  destruct (decide (i + 3 < b_length b)) as [Hin|Hout];
    [|exists 0; split; [done|lia]].
  destruct (Hbyte (i + 1) ltac:(lia)) as (b1 & Hb1 & Hbb1).
  destruct (Hbyte (i + 2) ltac:(lia)) as (b2 & Hb2 & Hbb2).
  destruct (Hbyte (i + 3) ltac:(lia)) as (b3 & Hb3 & Hbb3).
  unfold is_byte in Hbb1, Hbb2, Hbb3.
  rewrite (bind_Some _ _ _ _ _
             (view_of_load _ _ _ (i + 1) _ Hv ltac:(lia) Hb1)).
  rewrite (bind_Some _ _ _ _ _
             (view_of_load _ _ _ (i + 2) _ Hv ltac:(lia) Hb2)).
  rewrite (bind_Some _ _ _ _ _
             (view_of_load _ _ _ (i + 3) _ Hv ltac:(lia) Hb3)).
  eexists. split; [done|].
  change 0x07 with (Z.ones 3).
  rewrite low_bits, join4 by (done || (apply Hsix; lia)).
  pose proof (Hsix b1 ltac:(lia)). pose proof (Hsix b2 ltac:(lia)).
  pose proof (Hsix b3 ltac:(lia)). change (2 ^ 3) with 8.
  rewrite u32_small; Z.to_euclidean_division_equations; lia.
Qed.

Lemma character_at_stays_inside_witness :
  let h : heap := {[ 1%positive := storage [0xF0; 0x9F; 0x98; 0x80; 0xE2] ]} in
  let b := {| b_offset := 0; b_length := 5; b_data := (1%positive, 0) |} in
  view_of h b [0xF0; 0x9F; 0x98; 0x80; 0xE2] ∧
  (∃ v : Z, c_buffer_character_at b 0 h = Some (v, h)) ∧
  (∃ v : Z, c_buffer_character_at b 4 h = Some (v, h)).
Proof.
  intros h b.
  assert (view_of h b [0xF0; 0x9F; 0x98; 0x80; 0xE2]) as Hv.
  { repeat split; try (by vm_compute). concrete_holds. }
  assert (Forall is_byte [0xF0; 0x9F; 0x98; 0x80; 0xE2]) as Hb
    by (repeat constructor; by vm_compute).
  split; [exact Hv|]. split.
  - destruct (character_at_stays_inside h b _ 0 Hv Hb ltac:(by vm_compute))
      as (v & Hrun & _).
    exists v. exact Hrun.
  - destruct (character_at_stays_inside h b _ 4 Hv Hb ltac:(by vm_compute))
      as (v & Hrun & _).
    exists v. exact Hrun.
Defined.

(** ** Formatting numbers *)

(** The body that the three number formatters share: a local array of [k]
    characters, [sprintf] into it, and the buffer of the text it wrote. *)
Lemma show_with_run {A : Type} (sprintf : ptr → A → M unit) (a : A) (k : Z)
    (text : list Z) (h : heap) :
  writes_text sprintf a text → text ≠ [] → 0 ∉ text →
  Z.of_nat (length text) < k → k < 2 ^ 32 →
  yields_text (str ← alloca_uninit k;
               _ ← sprintf str a;
               buffer ← c_buffer_construct_from_null_terminated_string str;
               _ ← free str;
               mret buffer) h text.
Proof.
  intros Hw Hne Hnz Hk Hmax.
  pose proof (fresh_None h) as Hp. set (p := fresh (dom h)) in *.
  set (blk := replicate (Z.to_nat k) Uninit).
  set (h1 := <[p := blk]> h).
  set (blk' := (Val <$> (text ++ [0])) ++ drop (S (length text)) blk).
  set (h2 := <[p := blk']> h1).
  pose proof (fresh_None h2) as Hq. set (q := fresh (dom h2)) in *.
  assert (p ≠ q) as Hpq.
  { intros E. rewrite <- E in Hq. unfold h2 in Hq.
    by rewrite lookup_insert_eq in Hq. }
  exists q. split.
  { unfold h2, h1 in Hq. by rewrite !lookup_insert_ne in Hq. }
  rewrite (bind_Some _ _ _ h1 (p, 0)) by done.
  rewrite (bind_Some _ _ _ h2 tt).
  2: { apply Hw; [apply lookup_insert_eq|].
       unfold blk. rewrite length_replicate. lia. }
  assert (holds h2 (p, 0) (text ++ [0])) as Hh.
  { exists blk'. split; [apply lookup_insert_eq|]. split; [done|].
    simpl. rewrite drop_0. unfold blk'.
    by rewrite take_app_length' by (by rewrite length_fmap). }
  rewrite bind_unfold,
    (from_null_terminated_run h2 (p, 0) text Hh Hne Hnz ltac:(lia)).
  fold q. rewrite u32_small by lia.
  rewrite (bind_Some _ _ _ (delete p (<[q := storage text]> h2)) tt).
  2: { apply (free_run _ _ blk').
       rewrite lookup_insert_ne by done. apply lookup_insert_eq. }
  unfold mret, M_ret. do 2 f_equal.
  rewrite delete_insert_ne by done. unfold h2, h1.
  rewrite insert_insert_eq. by rewrite delete_insert_id.
Qed.

Section FormatterProperties.
Context {Double : Type}.
Context (sprintf_PRId64 sprintf_PRIu8 : ptr → Z → M unit).
Context (sprintf_g : ptr → Double → M unit).

(** X17.  The number formatters, for whatever [sprintf] writes: if it writes a
    text of at least one character (and its terminator) that fits the local
    array, 24 characters for [c_buffer_show_Int], 4 for [c_buffer_show_Byte]
    and 64 for [c_buffer_show_Double], the formatter returns a new buffer
    that holds exactly this text, without the terminator, and leaves
    nothing of the local array behind. *)
Theorem show_formats_text (h : heap) (n : Z) (x : Double) (text : list Z) :
  text ≠ [] → 0 ∉ text →
  (writes_text sprintf_PRId64 n text → Z.of_nat (length text) < 24 →
   yields_text (c_buffer_show_Int sprintf_PRId64 n) h text) ∧
  (writes_text sprintf_PRIu8 n text → Z.of_nat (length text) < 4 →
   yields_text (c_buffer_show_Byte sprintf_PRIu8 n) h text) ∧
  (writes_text sprintf_g x text → Z.of_nat (length text) < 64 →
   yields_text (c_buffer_show_Double sprintf_g x) h text).
Proof.
  intros Hne Hnz. split; [|split]; intros Hw Hk.
  - by apply (show_with_run sprintf_PRId64 n 24).
  - by apply (show_with_run sprintf_PRIu8 n 4).
  - by apply (show_with_run sprintf_g x 64).
Qed.
End FormatterProperties.

Lemma show_formats_text_witness :
  let sprintf : ptr → Z → M unit := λ str _ h,
    match h !! str.1 with
    | Some blk =>
        Some (tt, <[str.1 := (Val <$> [0x34; 0x32; 0]) ++ drop 3 blk]> h)
    | None => None
    end in
  ([0x34; 0x32] ≠ [] ∧ (0 ∉ [0x34; 0x32]) ∧
   writes_text sprintf 42 [0x34; 0x32] ∧
   Z.of_nat (length [0x34; 0x32]) < 4) ∧
  yields_text (c_buffer_show_Int sprintf 42) ∅ [0x34; 0x32] ∧
  yields_text (c_buffer_show_Byte sprintf 42) ∅ [0x34; 0x32] ∧
  yields_text (c_buffer_show_Double sprintf 42) ∅ [0x34; 0x32].
Proof.
  intros sprintf.
  assert ([0x34; 0x32] ≠ ([] : list Z)) as Hne by done.
  assert (0 ∉ [0x34; 0x32]) as Hnz
    by (apply (bool_decide_unpack _); by vm_compute).
  assert (writes_text sprintf 42 [0x34; 0x32]) as Hw.
  { intros h p blk Hp _. unfold sprintf. simpl. by rewrite Hp. }
  split; [by repeat split|].
  destruct (show_formats_text sprintf sprintf sprintf ∅ 42 42 [0x34; 0x32]
              Hne Hnz) as (Hi & Hb & Hd).
  split; [apply Hi; [exact Hw|by vm_compute]|].
  split; [apply Hb; [exact Hw|by vm_compute]|].
  apply Hd; [exact Hw|by vm_compute].
Defined.

(** ** Concatenation, composed *)

Lemma concatenate_view (h : heap) (left right : Buffer) (ls rs : list Z) :
  view_of h left ls → view_of h right rs →
  b_length left + b_length right < 2 ^ 32 →
  ∃ (c : Buffer) (h' : heap),
    c_buffer_concatenate left right h = Some (c, h') ∧
    b_offset c = 0 ∧ b_length c = b_length left + b_length right ∧
    view_of h' c (ls ++ rs) ∧
    (∀ (b : Buffer) (bs : list Z), view_of h b bs → view_of h' b bs).
Proof.
  intros Hl Hr Hsum.
  destruct (concatenate_run h left right ls rs Hl Hr Hsum) as (q & Hq & Hrun).
  pose proof Hl as (_ & Hll & _). pose proof Hr as (_ & Hrl & _).
  eexists _, _. split; [exact Hrun|]. do 2 (split; [done|]). split.
  - replace (b_length left + b_length right)
      with (Z.of_nat (length (ls ++ rs))) by (rewrite length_app; lia).
    apply storage_view. rewrite length_app. lia.
  - intros b bs Hb. apply (view_of_agree h); [|done].
    apply lookup_insert_ne. intros E.
    destruct (view_of_live h b bs Hb) as [blk Hblk].
    rewrite <- E in Hblk. congruence.
Qed.

(** X18.  Concatenation is associative on the bytes: for three views [a], [b]
    and [c] whose lengths add up to less than [2 ^ 32], the buffer of
    [(a ++ b) ++ c] and the buffer of [a ++ (b ++ c)] both hold the bytes
    of [a], then those of [b], then those of [c], and [c_buffer_eq] finds
    them equal. *)
Theorem concatenate_associative (h : heap) (a b c : Buffer)
    (xs ys zs : list Z) :
  view_of h a xs → view_of h b ys → view_of h c zs →
  Z.of_nat (length xs + length ys + length zs) < 2 ^ 32 →
  ∃ (ab abc bc abc' : Buffer) (h1 h2 h3 h4 : heap),
    c_buffer_concatenate a b h = Some (ab, h1) ∧
    c_buffer_concatenate ab c h1 = Some (abc, h2) ∧
    c_buffer_concatenate b c h2 = Some (bc, h3) ∧
    c_buffer_concatenate a bc h3 = Some (abc', h4) ∧
    view_of h4 abc (xs ++ ys ++ zs) ∧
    view_of h4 abc' (xs ++ ys ++ zs) ∧
    c_buffer_eq abc abc' h4 = Some (BooleanTrue, h4).
Proof.
  intros Ha Hb Hc Hsum.
  pose proof Ha as (_ & Hla & _). pose proof Hb as (_ & Hlb & _).
  pose proof Hc as (_ & Hlc & _).
  destruct (concatenate_view h a b xs ys Ha Hb ltac:(lia))
    as (ab & h1 & Hr1 & _ & Hlab & Hab & Hk1).
  destruct (concatenate_view h1 ab c (xs ++ ys) zs Hab (Hk1 _ _ Hc)
              ltac:(lia)) as (abc & h2 & Hr2 & _ & _ & Habc & Hk2).
  destruct (concatenate_view h2 b c ys zs (Hk2 _ _ (Hk1 _ _ Hb))
              (Hk2 _ _ (Hk1 _ _ Hc)) ltac:(lia))
    as (bc & h3 & Hr3 & _ & Hlbc & Hbc & Hk3).
  destruct (concatenate_view h3 a bc xs (ys ++ zs)
              (Hk3 _ _ (Hk2 _ _ (Hk1 _ _ Ha))) Hbc ltac:(lia))
    as (abc' & h4 & Hr4 & _ & _ & Habc' & Hk4).
  exists ab, abc, bc, abc', h1, h2, h3, h4.
  do 4 (split; [assumption|]).
  assert (view_of h4 abc (xs ++ ys ++ zs)) as Hv.
  { rewrite app_assoc. by apply Hk4, Hk3. }
  do 2 (split; [assumption|]).
  rewrite (eq_run h4 abc abc' _ _ Hv Habc').
  by destruct (decide (xs ++ ys ++ zs = xs ++ ys ++ zs)).
Qed.

Lemma concatenate_associative_witness :
  let h : heap := {[ 1%positive := storage [1; 2; 3; 4; 5] ]} in
  let a := {| b_offset := 0; b_length := 2; b_data := (1%positive, 0) |} in
  let b := {| b_offset := 2; b_length := 1; b_data := (1%positive, 0) |} in
  let c := {| b_offset := 3; b_length := 2; b_data := (1%positive, 0) |} in
  (view_of h a [1; 2] ∧ view_of h b [3] ∧ view_of h c [4; 5]) ∧
  ∃ (ab abc bc abc' : Buffer) (h1 h2 h3 h4 : heap),
    c_buffer_concatenate a b h = Some (ab, h1) ∧
    c_buffer_concatenate ab c h1 = Some (abc, h2) ∧
    c_buffer_concatenate b c h2 = Some (bc, h3) ∧
    c_buffer_concatenate a bc h3 = Some (abc', h4) ∧
    view_of h4 abc [1; 2; 3; 4; 5] ∧
    view_of h4 abc' [1; 2; 3; 4; 5] ∧
    c_buffer_eq abc abc' h4 = Some (BooleanTrue, h4).
Proof.
  intros h a b c.
  assert (view_of h a [1; 2]) as Ha.
  { repeat split; try (by vm_compute). concrete_holds. }
  assert (view_of h b [3]) as Hb.
  { repeat split; try (by vm_compute). concrete_holds. }
  assert (view_of h c [4; 5]) as Hc.
  { repeat split; try (by vm_compute). concrete_holds. }
  split; [exact (conj Ha (conj Hb Hc))|].
  exact (concatenate_associative h a b c [1; 2] [3] [4; 5] Ha Hb Hc
           ltac:(by vm_compute)).
Defined.

(** X19.  Slicing takes a concatenation apart again: the result of
    [c_buffer_concatenate left right] has offset 0, so [c_buffer_slice]
    accepts the two ranges, and the slice of the first [length(left)] bytes
    and the slice of the [length(right)] bytes after them are views of the
    new block that [c_buffer_eq] finds equal to [left] and to [right]. *)
Theorem concatenate_then_slice (h : heap) (left right : Buffer)
    (ls rs : list Z) :
  view_of h left ls → view_of h right rs →
  b_length left + b_length right < 2 ^ 32 →
  ∃ (c : Buffer) (h' : heap),
    c_buffer_concatenate left right h = Some (c, h') ∧
    let first := c_buffer_slice c 0 (b_length left) in
    let second := c_buffer_slice c (b_length left) (b_length right) in
    b_data first = b_data c ∧ b_data second = b_data c ∧
    view_of h' first ls ∧ view_of h' second rs ∧
    c_buffer_eq first left h' = Some (BooleanTrue, h') ∧
    c_buffer_eq second right h' = Some (BooleanTrue, h').
Proof.
  intros Hl Hr Hsum.
  pose proof Hl as (_ & Hll & _). pose proof Hr as (_ & Hrl & _).
  destruct (concatenate_view h left right ls rs Hl Hr Hsum)
    as (c & h' & Hrun & Hoff & Hlen & Hc & Hkeep).
  exists c, h'. split; [exact Hrun|]. intros first second.
  do 2 (split; [apply slice_data|]).
  assert (view_of h' first ls) as Hf.
  { pose proof (slice_view h' c (ls ++ rs) 0 (b_length left) Hc ltac:(lia)
                  ltac:(lia) ltac:(lia)) as Hs.
    rewrite Hll in Hs at 2. rewrite Nat2Z.id in Hs.
    change (Z.to_nat 0) with 0%nat in Hs.
    by rewrite drop_0, take_app_length in Hs. }
  assert (view_of h' second rs) as Hs.
  { pose proof (slice_view h' c (ls ++ rs) (b_length left) (b_length right)
                  Hc ltac:(lia) ltac:(lia) ltac:(lia)) as Hs.
    rewrite Hll in Hs at 2. rewrite Hrl in Hs at 2.
    rewrite !Nat2Z.id, drop_app_length in Hs.
    by rewrite take_ge in Hs by lia. }
  do 2 (split; [assumption|]). split.
  - rewrite (eq_run h' first left ls ls Hf (Hkeep _ _ Hl)).
    by destruct (decide (ls = ls)).
  - rewrite (eq_run h' second right rs rs Hs (Hkeep _ _ Hr)).
    by destruct (decide (rs = rs)).
Qed.

Lemma concatenate_then_slice_witness :
  let h : heap := {[ 1%positive := storage [1; 2; 3; 4; 5] ]} in
  let l := {| b_offset := 1; b_length := 2; b_data := (1%positive, 0) |} in
  let r := {| b_offset := 3; b_length := 2; b_data := (1%positive, 0) |} in
  (view_of h l [2; 3] ∧ view_of h r [4; 5]) ∧
  ∃ (c : Buffer) (h' : heap),
    c_buffer_concatenate l r h = Some (c, h') ∧
    view_of h' (c_buffer_slice c 0 2) [2; 3] ∧
    view_of h' (c_buffer_slice c 2 2) [4; 5] ∧
    c_buffer_eq (c_buffer_slice c 0 2) l h' = Some (BooleanTrue, h') ∧
    c_buffer_eq (c_buffer_slice c 2 2) r h' = Some (BooleanTrue, h').
Proof.
  intros h l r.
  assert (view_of h l [2; 3]) as Hl.
  { repeat split; try (by vm_compute). concrete_holds. }
  assert (view_of h r [4; 5]) as Hr.
  { repeat split; try (by vm_compute). concrete_holds. }
  split; [exact (conj Hl Hr)|].
  destruct (concatenate_then_slice h l r [2; 3] [4; 5] Hl Hr
              ltac:(by vm_compute))
    as (c & h' & Hrun & _ & _ & Hf & Hs & He1 & He2).
  exists c, h'. exact (conj Hrun (conj Hf (conj Hs (conj He1 He2)))).
Defined.

(** ** The end of a buffer *)

(** X20.  [c_buffer_destruct] frees the block of [data], whatever the offset and
    the length of the view are: destroying any slice of a buffer that
    [c_buffer_construct] has just built gives back the heap as it was before
    the construction.  After that, reading or writing through the buffer,
    or destroying it again, is undefined. *)
Theorem construct_then_destruct (h : heap) (data : ptr) (n : Z)
    (bytes : list Z) :
  Z.of_nat (length bytes) = n → n < 2 ^ 32 → holds h data bytes →
  ∃ (b : Buffer) (h' : heap),
    c_buffer_construct n data h = Some (b, h') ∧
    (∀ offset length : Z,
       c_buffer_destruct (c_buffer_slice b offset length) h' = Some (tt, h)) ∧
    (∀ i : Z, c_buffer_index b i h = None) ∧
    (∀ i v : Z, c_buffer_set b i v h = None) ∧
    c_buffer_destruct b h = None.
Proof.
  intros Hlen Hn Hdata. pose proof (fresh_None h) as Hq.
  eexists _, _. split.
  { apply (construct_run h data n bytes Hlen); [|done].
    unfold BUFFER_HEADER_WIDTH. lia. }
  split.
  { intros offset length. unfold c_buffer_destruct. rewrite slice_data.
    simpl b_data.
    rewrite (free_run _ _ (storage bytes)) by apply lookup_insert_eq.
    by rewrite delete_insert_id. }
  split; [|split].
  - intros i. unfold c_buffer_index, load, cell_at. simpl. by rewrite Hq.
  - intros i v. unfold c_buffer_set, store. simpl. by rewrite Hq.
  - unfold c_buffer_destruct, free. simpl. by rewrite Hq.
Qed.

Lemma construct_then_destruct_witness :
  let h : heap := {[ 1%positive := [Val 0x41; Val 0x42; Val 0x43] ]} in
  holds h (1%positive, 0) [0x41; 0x42; 0x43] ∧
  ∃ (b : Buffer) (h' : heap),
    c_buffer_construct 3 (1%positive, 0) h = Some (b, h') ∧
    c_buffer_destruct (c_buffer_slice b 1 2) h' = Some (tt, h) ∧
    c_buffer_index b 0 h = None.
Proof.
  intros h.
  assert (holds h (1%positive, 0) [0x41; 0x42; 0x43]) as Hh by concrete_holds.
  split; [exact Hh|].
  destruct (construct_then_destruct h (1%positive, 0) 3 [0x41; 0x42; 0x43]
              eq_refl eq_refl Hh) as (b & h' & Hrun & Hd & Hi & _).
  exists b, h'. exact (conj Hrun (conj (Hd 1 2) (Hi 0))).
Defined.
